(** * Dinchariya: task catalog parser and daily progress engine

    A shallow embedding of [src/index.tsx] (class [DailyDinchariyaApp]):
    the CSV parser ([slug], [parseMasterTasks], [parseDays]), the daily
    selection ([isEligibleToday], [generateTodayInstances]), the points
    aggregation ([updateProgress]) and the two toggle handlers
    ([handleTaskToggle], [handleSubtaskToggle]); then the rewriting of
    the sheet address ([getCsvUrl]) and the sheet loader
    ([loadTasksFromUrl], [render], [setLoaderState],
    [handleLoadSheetClick], [loadInitialData]).

    Conventions of the embedding.
    - A JavaScript [number] is an IEEE 754 binary64 value: [spec_float]
      with precision 53 and maximal exponent 1024.
    - A JavaScript string is a sequence of code units; the embedding covers
      the code units below 256 (the Latin-1 part of UTF-16), one [ascii]
      per code unit.
    - [undefined] is [None].
    - [Record<string, boolean>] is an object made by the literal [{}]:
      its own string keys are a finite map ([gmap string bool]), and a
      read of a name that is not an own key goes to [Object.prototype]
      ([flagOf]), as does the assignment to [__proto__] ([assign]). The
      order of enumeration is not observable by the code modelled here
      ([every], [filter(Boolean).length] and a loop that assigns one
      value to every key).
    - The DOM side of the handlers (re-rendering, text of the progress
      ring) is not part of the embedding; of the page the loader part
      keeps the banner, the URL input, the status line and the button. *)

From Stdlib Require Import ZArith List Ascii String Bool Lia.
From Stdlib Require Import Floats.SpecFloat DecimalString.
From stdpp Require Import gmap strings list fin_maps.

Local Open Scope string_scope.
Local Open Scope list_scope.

(** ** JavaScript numbers *)

Module JsNumber.

Definition number : Type := spec_float.

Definition prec : Z := 53.
Definition emax : Z := 1024.

Definition NaN : number := S754_nan.
Definition zero : number := S754_zero false.
Definition negzero : number := S754_zero true.

(** The Number value of a mathematical integer (round to nearest, ties
    to even). *)
Definition ofZ (z : Z) : number := binary_normalize prec emax z 0 false.
Definition ofNat (n : nat) : number := ofZ (Z.of_nat n).

Definition add : number -> number -> number := SFadd prec emax.
Definition mul : number -> number -> number := SFmul prec emax.
Definition div : number -> number -> number := SFdiv prec emax.

(** [x > y] *)
Definition gt (x y : number) : bool := SFltb y x.

Definition isNaN (x : number) : bool :=
  match x with S754_nan => true | _ => false end.

Definition isZero (x : number) : bool :=
  match x with S754_zero _ => true | _ => false end.

(** ToBoolean on a number: [+0], [-0] and [NaN] are falsy. *)
Definition truthy (x : number) : bool := negb (isZero x || isNaN x).

(** [x || y] on numbers. *)
Definition orElse (x y : number) : number := if truthy x then x else y.

(** [Math.min(x, y)]: [NaN] if either argument is, and [-0] below [+0]. *)
Definition Math_min (x y : number) : number :=
  match SFcompare x y with
  | None => NaN
  | Some Lt => x
  | Some Gt => y
  | Some Eq => match x with S754_zero true => x | _ => y end
  end.

End JsNumber.

Import JsNumber.

(** ** JavaScript strings *)

Module JsString.

Definition code (c : ascii) : N := N_of_ascii c.

Definition LF : ascii := ascii_of_N 10.
Definition CR : ascii := ascii_of_N 13.
Definition comma : ascii := ascii_of_N 44.
Definition dquote : ascii := ascii_of_N 34.
Definition underscore : ascii := ascii_of_N 95.

(** WhiteSpace and LineTerminator code units below 256: TAB, LF, VT, FF,
    CR, SP and NBSP. This is the set used by [trim], by [\s] and by
    the leading-blank skip of [parseInt]. *)
Definition isWhiteSpace (c : ascii) : bool :=
  let n := code c in
  ((9 <=? n) && (n <=? 13) || (n =? 32) || (n =? 160))%N.

Fixpoint trimStart (s : string) : string :=
  match s with
  | String c r => if isWhiteSpace c then trimStart r else s
  | EmptyString => EmptyString
  end.

Fixpoint trimEnd (s : string) : string :=
  match s with
  | EmptyString => EmptyString
  | String c r =>
      match trimEnd r with
      | EmptyString => if isWhiteSpace c then EmptyString else String c EmptyString
      | r' => String c r'
      end
  end.

(** [s.trim()] *)
Definition trim (s : string) : string := trimEnd (trimStart s).

(** [c.toLowerCase()] on one code unit: A-Z, and the Latin-1 capitals
    U+00C0..U+00DE except the multiplication sign U+00D7. *)
Definition lowerChar (c : ascii) : ascii :=
  let n := code c in
  if ((65 <=? n) && (n <=? 90) || (192 <=? n) && (n <=? 222) && negb (n =? 215))%N
  then ascii_of_N (n + 32) else c.

Fixpoint toLowerCase (s : string) : string :=
  match s with
  | EmptyString => EmptyString
  | String c r => String (lowerChar c) (toLowerCase r)
  end.

(** Put a code unit in front of the first piece of a split. *)
Definition consHead (c : ascii) (pieces : list string) : list string :=
  match pieces with
  | h :: t => String c h :: t
  | [] => [String c EmptyString]
  end.

(** [s.split(sep)] for a one-unit separator. *)
Fixpoint split (sep : ascii) (s : string) : list string :=
  match s with
  | EmptyString => [EmptyString]
  | String c r =>
      if Ascii.eqb c sep then EmptyString :: split sep r
      else consHead c (split sep r)
  end.

(** [s.split(/\r\n|\n/)] *)
Fixpoint splitLines (s : string) : list string :=
  match s with
  | EmptyString => [EmptyString]
  | String c r =>
      if Ascii.eqb c LF then EmptyString :: splitLines r
      else if Ascii.eqb c CR then
        match r with
        | String c' r' =>
            if Ascii.eqb c' LF then EmptyString :: splitLines r'
            else consHead c (splitLines r)
        | EmptyString => consHead c (splitLines r)
        end
      else consHead c (splitLines r)
  end.

Fixpoint filterChars (keep : ascii -> bool) (s : string) : string :=
  match s with
  | EmptyString => EmptyString
  | String c r =>
      if keep c then String c (filterChars keep r) else filterChars keep r
  end.

(** The replace call that deletes every double-quote unit. *)
Definition removeQuotes (s : string) : string :=
  filterChars (fun c => negb (Ascii.eqb c dquote)) s.

(** The replace call on [\s+]: every maximal run of blanks becomes one
    underscore. [inRun] tells that the previous unit was a blank. *)
Fixpoint collapseBlanks (inRun : bool) (s : string) : string :=
  match s with
  | EmptyString => EmptyString
  | String c r =>
      if isWhiteSpace c then
        if inRun then collapseBlanks true r
        else String underscore (collapseBlanks true r)
      else String c (collapseBlanks false r)
  end.

(** The class [[a-z0-9_]]. *)
Definition isSlugChar (c : ascii) : bool :=
  let n := code c in
  ((97 <=? n) && (n <=? 122) || (48 <=? n) && (n <=? 57) || (n =? 95))%N.

Definition isDigit (c : ascii) : bool :=
  let n := code c in ((48 <=? n) && (n <=? 57))%N.

Definition digitValue (c : ascii) : Z := Z.of_N (code c) - 48.

(** Value of the longest prefix of decimal digits, read left to right;
    [None] when the prefix is empty. [acc] is the value read so far and
    [seen] tells that at least one digit was read. *)
Fixpoint digitsPrefix (seen : bool) (acc : Z) (s : string) : option Z :=
  match s with
  | String c r =>
      if isDigit c then digitsPrefix true (acc * 10 + digitValue c) r
      else if seen then Some acc else None
  | EmptyString => if seen then Some acc else None
  end.

(** [parseInt(s, 10)] on a string: leading blanks are skipped, then an
    optional sign, then the longest run of decimal digits is read; the
    result is the Number value of the integer read, with its sign. *)
Definition parseIntString (s : string) : number :=
  let s1 := trimStart s in
  let '(negative, s2) :=
    match s1 with
    | String c r =>
        if Ascii.eqb c "-" then (true, r)
        else if Ascii.eqb c "+" then (false, r)
        else (false, s1)
    | EmptyString => (false, s1)
    end in
  match digitsPrefix false 0 s2 with
  | None => NaN
  | Some 0%Z => if negative then negzero else zero
  | Some v => ofZ (if negative then - v else v)
  end.

(** [parseInt(x, 10)] where [x] may be [undefined]: the argument is
    first converted to a string. *)
Definition parseInt (x : option string) : number :=
  match x with
  | Some s => parseIntString s
  | None => parseIntString "undefined"
  end.

(** ToBoolean on a possibly undefined string. *)
Definition truthyString (x : option string) : bool :=
  match x with
  | Some s => negb (String.eqb s "")
  | None => false
  end.

End JsString.

Import JsString.

(** ** Data model *)

Inductive Day : Type := Mon | Tue | Wed | Thu | Fri | Sat | Sun.

#[global] Instance Day_eq_dec : EqDecision Day.
Proof. solve_decision. Defined.

(** The string literal behind each member of the union type [Day]. *)
Definition dayTag (d : Day) : string :=
  match d with
  | Mon => "Mon" | Tue => "Tue" | Wed => "Wed" | Thu => "Thu"
  | Fri => "Fri" | Sat => "Sat" | Sun => "Sun"
  end.

Record Subtask : Type := mkSubtask {
  sub_id : string;
  sub_name : string;
  subPoints : option number
}.

Record Task : Type := mkTask {
  task_id : string;
  task_name : string;
  points : number;
  timeStart : option string;
  timeEnd : option string;
  daysOfWeek : list Day;
  subtasks : list Subtask;
  active : bool
}.

Record TaskInstance : Type := mkTaskInstance {
  inst_id : string;
  task : Task;
  completed : bool;
  subtaskCompletion : gmap string bool
}.

(** Views of a [Record<string, boolean>]. *)
Definition objectKeys (o : gmap string bool) : list string :=
  map fst (map_to_list o).

Definition objectValues (o : gmap string bool) : list bool :=
  map snd (map_to_list o).

(** The objects used as maps are made by the literal [{}]: what is not an
    own key is looked up in [Object.prototype]. These are its property
    names; every one of them holds a function, but [__proto__], an
    accessor whose getter returns the prototype object and whose setter
    ignores a value that is neither an object nor [null]. *)
Definition protoKey : string := "__proto__".

Definition prototypeKeys : list string :=
  ["constructor"; "hasOwnProperty"; "isPrototypeOf"; "propertyIsEnumerable";
   "toLocaleString"; "toString"; "valueOf";
   "__defineGetter__"; "__defineSetter__"; "__lookupGetter__";
   "__lookupSetter__"; protoKey].

(** Truthiness of [o[k]]: the own value when [k] is an own key; otherwise
    the inherited value, a function or an object and so truthy, when [k]
    is a property name of [Object.prototype]; otherwise [undefined], which
    is falsy. *)
Definition flagOf (o : gmap string bool) (k : string) : bool :=
  match o !! k with
  | Some b => b
  | None => bool_decide (k ∈ prototypeKeys)
  end.

(** [o[k] = b] for a boolean [b]: the own property is written or created,
    except that the assignment to [__proto__] goes to the inherited setter
    when the object has no own property of that name, and the setter
    ignores a boolean. *)
Definition assign (k : string) (b : bool) (o : gmap string bool)
    : gmap string bool :=
  match o !! k with
  | Some _ => <[k := b]> o
  | None => if String.eqb k protoKey then o else <[k := b]> o
  end.

(** ** Task catalog parser *)

(** [slug] *)
Definition slug (s : string) : string :=
  filterChars isSlugChar (collapseBlanks false (toLowerCase s)).

Definition allDays : list Day := [Mon; Tue; Wed; Thu; Fri; Sat; Sun].

(** [allDays.includes(d)] for a string [d], together with the cast of the
    kept string to [Day]. *)
Definition dayOfString (s : string) : option Day :=
  List.find (fun d => String.eqb s (dayTag d)) allDays.

(** [parseDays]. The argument is [undefined] when the row is too short. *)
Definition parseDays (dayStr : option string) : list Day :=
  match dayStr with
  | None => allDays
  | Some s =>
      if String.eqb s "" || String.eqb (toLowerCase s) "all" then allDays
      else if String.eqb (toLowerCase s) "weekdays" then [Mon; Tue; Wed; Thu; Fri]
      else if String.eqb (toLowerCase s) "weekend" then [Sat; Sun]
      else omap dayOfString (map trim (split comma s))
  end.

(** The value of [x] when it is truthy: [x || undefined]. *)
Definition nonEmpty (x : option string) : option string :=
  if truthyString x then x else None.

(** The columns of one line: split on commas, quotes deleted, trimmed. *)
Definition columnsOf (line : string) : list string :=
  map (fun c => trim (removeQuotes c)) (split comma line).

(** The state of the loop of [parseMasterTasks]: the array
    [this.masterTasks] and the variable [currentTask]. [currentTask] is a
    reference to an element of the array, kept here as its index, so that
    a push on [currentTask.subtasks] is seen through the array. *)
Record ParserState : Type := mkParserState {
  masterTasks : list Task;
  currentTask : option nat
}.

(** [t.subtasks.push(sub)] *)
Definition pushSubtask (sub : Subtask) (t : Task) : Task :=
  mkTask (task_id t) (task_name t) (points t) (timeStart t) (timeEnd t)
         (daysOfWeek t) (subtasks t ++ [sub]) (active t).

(** The object literal of a parent task row. *)
Definition taskOfColumns (taskName : string) (columns : list string) : Task :=
  mkTask (slug taskName)
         taskName
         (orElse (parseInt (columns !! 2%nat)) zero)
         (nonEmpty (columns !! 4%nat))
         (nonEmpty (columns !! 5%nat))
         (parseDays (columns !! 6%nat))
         []
         (match columns !! 11%nat with
          | Some activeStr => String.eqb activeStr "TRUE"
          | None => false
          end).

(** The object literal of a subtask row under the task named [parent]. *)
Definition subtaskOfColumns (parent subtaskName : string)
    (columns : list string) : Subtask :=
  mkSubtask (slug (parent +:+ "_" +:+ subtaskName))
            subtaskName
            (match nonEmpty (columns !! 3%nat) with
             | Some subPointsStr => Some (parseInt (Some subPointsStr))
             | None => None
             end).

(** The body of the [forEach] callback of [parseMasterTasks]. *)
Definition processLine (st : ParserState) (line : string) : ParserState :=
  if String.eqb (trim line) "" then st
  else
    let columns := columnsOf line in
    match nonEmpty (columns !! 0%nat) with
    | Some taskName =>
        mkParserState (masterTasks st ++ [taskOfColumns taskName columns])
                      (Some (length (masterTasks st)))
    | None =>
        match nonEmpty (columns !! 1%nat), currentTask st with
        | Some subtaskName, Some ref =>
            match masterTasks st !! ref with
            | Some cur =>
                mkParserState
                  (alter (pushSubtask
                            (subtaskOfColumns (task_name cur) subtaskName columns))
                         ref (masterTasks st))
                  (Some ref)
            | None => st
            end
        | _, _ => st
        end
    end.

(** The lines after the header. *)
Definition dataLines (csv : string) : list string :=
  skipn 1 (splitLines csv).

(** [parseMasterTasks]: the new content of [this.masterTasks], given its
    content [before] the call. *)
Definition parseMasterTasks (before : list Task) (csv : string) : list Task :=
  masterTasks (fold_left processLine (dataLines csv) (mkParserState before None)).

(** ** Daily progress engine *)

(** A [Date] is used only through [getDay()], 0 for Sunday to 6. *)
Definition Date : Type := nat.

Definition dayMap : list Day := [Sun; Mon; Tue; Wed; Thu; Fri; Sat].

(** [days.includes(d)], where [d] is [undefined] outside of [dayMap]. *)
Definition includesDay (days : list Day) (d : option Day) : bool :=
  match d with
  | Some d => existsb (fun d' => bool_decide (d' = d)) days
  | None => false
  end.

(** [isEligibleToday] *)
Definition isEligibleToday (t : Task) (today : Date) : bool :=
  if negb (active t) then false
  else
    let todayDay := dayMap !! today in
    includesDay (daysOfWeek t) todayDay.

(** The object literal built by the [map] callback of
    [generateTodayInstances]. *)
Definition newInstance (t : Task) : TaskInstance :=
  mkTaskInstance (task_id t) t false
    (fold_left (fun acc sub => assign (sub_id sub) false acc) (subtasks t) ∅).

(** [generateTodayInstances]: the new value of [this.todayInstances]. *)
Definition generateTodayInstances (catalog : list Task) (today : Date)
    : list TaskInstance :=
  map newInstance (List.filter (fun t => isEligibleToday t today) catalog).

(** [sub.subPoints || 0] *)
Definition subPointsOrZero (sub : Subtask) : number :=
  match subPoints sub with
  | Some v => orElse v zero
  | None => zero
  end.

(** [s.subPoints !== undefined] *)
Definition definesSubPoints (sub : Subtask) : bool :=
  match subPoints sub with Some _ => true | None => false end.

(** [Object.values(o).filter(Boolean).length] *)
Definition completedCount (o : gmap string bool) : nat :=
  length (List.filter (fun b : bool => b) (objectValues o)).

(** The value of [earnedSubPoints] at the end of the [else if] branch of
    [updateProgress], for an instance that is not completed. *)
Definition earnedSubPoints (inst : TaskInstance) : number :=
  let subs := subtasks (task inst) in
  let hasDefinedSubPoints := existsb definesSubPoints subs in
  if hasDefinedSubPoints then
    fold_left
      (fun earned sub =>
         if flagOf (subtaskCompletion inst) (sub_id sub)
         then add earned (subPointsOrZero sub) else earned)
      subs zero
  else if (0 <? length subs)%nat then
    let splitPoints := div (points (task inst)) (ofNat (length subs)) in
    mul (ofNat (completedCount (subtaskCompletion inst))) splitPoints
  else zero.

(** One turn of the [forEach] of [updateProgress] on the pair
    [(currentPoints, totalPoints)]. *)
Definition accumulate (acc : number * number) (inst : TaskInstance)
    : number * number :=
  let '(currentPoints, totalPoints) := acc in
  let totalPoints := add totalPoints (points (task inst)) in
  if completed inst then
    (add currentPoints (points (task inst)), totalPoints)
  else if (0 <? length (subtasks (task inst)))%nat then
    (add currentPoints (Math_min (earnedSubPoints inst) (points (task inst))),
     totalPoints)
  else (currentPoints, totalPoints).

Record Progress : Type := mkProgress {
  currentPoints : number;
  totalPoints : number;
  progressPercent : number;
  allDone : bool
}.

(** [updateProgress]: the numbers it computes before it writes them to the
    page, and whether the all-done banner is shown. *)
Definition updateProgress (todayInstances : list TaskInstance) : Progress :=
  let '(currentPoints, totalPoints) :=
    fold_left accumulate todayInstances (zero, zero) in
  let progressPercent :=
    if gt totalPoints zero then div currentPoints totalPoints else zero in
  mkProgress currentPoints totalPoints progressPercent
    ((0 <? length todayInstances)%nat && SFeqb progressPercent (ofZ 1)).

(** [todayInstances.find(i => i.id === instanceId)], as the index of the
    object it returns. *)
Fixpoint findIndex (instanceId : string) (instances : list TaskInstance)
    : option nat :=
  match instances with
  | [] => None
  | i :: rest =>
      if String.eqb (inst_id i) instanceId then Some 0%nat
      else option_map S (findIndex instanceId rest)
  end.

(** What [handleTaskToggle] does to the instance it found. *)
Definition toggleTask (isChecked : bool) (inst : TaskInstance) : TaskInstance :=
  mkTaskInstance (inst_id inst) (task inst) isChecked
    (fold_left (fun o subId => assign subId isChecked o)
               (objectKeys (subtaskCompletion inst))
               (subtaskCompletion inst)).

(** What [handleSubtaskToggle] does to the instance it found. *)
Definition toggleSubtask (subtaskId : string) (isChecked : bool)
    (inst : TaskInstance) : TaskInstance :=
  let o := assign subtaskId isChecked (subtaskCompletion inst) in
  let allSubtasksDone := forallb (fun b : bool => b) (objectValues o) in
  mkTaskInstance (inst_id inst) (task inst) allSubtasksDone o.

(** [handleTaskToggle]: the instances after the call. The object found is
    changed in place, the array keeps its length and order. *)
Definition handleTaskToggle (todayInstances : list TaskInstance)
    (instanceId : string) (isChecked : bool) : list TaskInstance :=
  match findIndex instanceId todayInstances with
  | None => todayInstances
  | Some k => alter (toggleTask isChecked) k todayInstances
  end.

(** [handleSubtaskToggle] *)
Definition handleSubtaskToggle (todayInstances : list TaskInstance)
    (instanceId subtaskId : string) (isChecked : bool) : list TaskInstance :=
  match findIndex instanceId todayInstances with
  | None => todayInstances
  | Some k => alter (toggleSubtask subtaskId isChecked) k todayInstances
  end.

(** * Notions used to state the properties *)

(** An assignment to the key [k] of [o] writes an own property: [k] is
    not [__proto__], or [o] has [__proto__] as an own key. *)
Definition takesAssignment (o : gmap string bool) (k : string) : Prop :=
  k ≠ protoKey ∨ is_Some (o !! k).

#[global] Instance takesAssignment_dec (o : gmap string bool) (k : string) :
  Decision (takesAssignment o k).
Proof. unfold takesAssignment. apply _. Defined.

#[global] Typeclasses Opaque takesAssignment.

(** The keys of [subtaskCompletion] are the ids of the subtasks of the
    task, as sets. *)
Definition keysMatch (inst : TaskInstance) : Prop :=
  dom (subtaskCompletion inst)
  = list_to_set (map sub_id (subtasks (task inst))).

(** The state of an instance just created for the task [t]: not
    completed, a false flag stored for every subtask id that is not
    [__proto__], and no flag that is not false. *)
Definition freshFor (t : Task) (inst : TaskInstance) : Prop :=
  inst_id inst = task_id t
  ∧ task inst = t
  ∧ completed inst = false
  ∧ (∀ sub, sub ∈ subtasks t → sub_id sub ≠ protoKey →
            subtaskCompletion inst !! sub_id sub = Some false)
  ∧ (∀ k v, subtaskCompletion inst !! k = Some v → v = false).

(** The field starts, after leading blanks, with a minus sign. *)
Definition startsWithMinus (x : option string) : bool :=
  match x with
  | Some s =>
      match trimStart s with
      | String c _ => Ascii.eqb c "-"
      | EmptyString => false
      end
  | None => false
  end.

(** A number that is not below zero, [NaN] left aside. *)
Definition notNegative (x : number) : Prop :=
  match x with
  | S754_nan | S754_zero _ => True
  | S754_infinity s | S754_finite s _ _ => s = false
  end.

(** The three kinds of data row: a row with a task name, a row with no
    task name and a subtask name, and a row that is skipped (blank, or
    with neither name). *)
Inductive Row : Type :=
| TaskRow (taskName : string) (columns : list string)
| SubtaskRow (subtaskName : string) (columns : list string)
| SkippedRow.

Definition classify (line : string) : Row :=
  if String.eqb (trim line) "" then SkippedRow
  else
    let columns := columnsOf line in
    match nonEmpty (columns !! 0%nat) with
    | Some taskName => TaskRow taskName columns
    | None =>
        match nonEmpty (columns !! 1%nat) with
        | Some subtaskName => SubtaskRow subtaskName columns
        | None => SkippedRow
        end
    end.

Definition isTaskRow (r : Row) : bool :=
  match r with TaskRow _ _ => true | _ => false end.

Definition isSkippedRow (r : Row) : bool :=
  match r with SkippedRow => true | _ => false end.

Definition rowTaskName (r : Row) : option string :=
  match r with
  | TaskRow taskName _ => Some taskName
  | _ => None
  end.

(** The subtasks given by the subtask rows that come before the next task
    row, for a parent task named [parent]. *)
Fixpoint subtasksBelow (parent : string) (rows : list Row) : list Subtask :=
  match rows with
  | SubtaskRow subtaskName columns :: rest =>
      subtaskOfColumns parent subtaskName columns :: subtasksBelow parent rest
  | SkippedRow :: rest => subtasksBelow parent rest
  | TaskRow _ _ :: _ => []
  | [] => []
  end.

Definition withSubtasks (t : Task) (subs : list Subtask) : Task :=
  mkTask (task_id t) (task_name t) (points t) (timeStart t) (timeEnd t)
         (daysOfWeek t) (subtasks t ++ subs) (active t).

(** The catalog described row by row: one task per task row, in order,
    each with the subtask rows that follow it up to the next task row;
    every other row gives nothing. *)
Fixpoint catalogOfRows (rows : list Row) : list Task :=
  match rows with
  | TaskRow taskName columns :: rest =>
      withSubtasks (taskOfColumns taskName columns) (subtasksBelow taskName rest)
      :: catalogOfRows rest
  | _ :: rest => catalogOfRows rest
  | [] => []
  end.

(** The sum of a list of numbers, added from left to right to [+0]. *)
Definition sumNumbers (l : list number) : number := fold_left add l zero.

(** The completion flag of a subtask of an instance. *)
Definition subtaskDone (inst : TaskInstance) (sub : Subtask) : bool :=
  flagOf (subtaskCompletion inst) (sub_id sub).

(** What an instance that is not completed and has subtasks earns, before
    the clamp. *)
Definition partialCredit (inst : TaskInstance) : number :=
  let subs := subtasks (task inst) in
  if existsb definesSubPoints subs then
    sumNumbers (map subPointsOrZero (List.filter (subtaskDone inst) subs))
  else
    mul (ofNat (completedCount (subtaskCompletion inst)))
        (div (points (task inst)) (ofNat (length subs))).

(** What an instance adds to [currentPoints]; [None] when nothing is
    added. *)
Definition contribution (inst : TaskInstance) : option number :=
  if completed inst then Some (points (task inst))
  else
    match subtasks (task inst) with
    | [] => None
    | _ :: _ => Some (Math_min (partialCredit inst) (points (task inst)))
    end.

(** The same, with [+0] for an instance that adds nothing. *)
Definition earned (inst : TaskInstance) : number :=
  match contribution inst with
  | Some v => v
  | None => zero
  end.

(** Equal numbers, the two zeros being taken as equal. *)
Definition sameValue (x y : number) : Prop :=
  x = y ∨ (isZero x = true ∧ isZero y = true).

(** The earned points in the words of the specification: in the equal
    split the subtasks whose flag is true are counted, and a subtask
    earns its [subPoints] when it defines them. *)
Definition earnedAsClaimed (inst : TaskInstance) : number :=
  let subs := subtasks (task inst) in
  let doneSubs := List.filter (subtaskDone inst) subs in
  if completed inst then points (task inst)
  else
    match subs with
    | [] => zero
    | _ :: _ =>
        Math_min
          (if existsb definesSubPoints subs then
             sumNumbers (map (fun sub => match subPoints sub with
                                         | Some v => v
                                         | None => zero
                                         end) doneSubs)
           else
             mul (ofNat (length doneSubs))
                 (div (points (task inst)) (ofNat (length subs))))
          (points (task inst))
    end.

(** ** Example data *)

Definition csvOfLines (lines : list string) : string :=
  String.concat (String LF EmptyString) lines.

Definition headerLine : string :=
  "Task,Subtask,Points,SubPoints,Start,End,Days,,,,,Active".

(** Two task rows whose names have the same slug; only the second has a
    subtask row. *)
Definition duplicateIdCsv : string :=
  csvOfLines [headerLine;
              "Run,,10,,,,all,,,,,TRUE";
              "run!,,5,,,,all,,,,,TRUE";
              ",x"].

Definition taskRun : Task :=
  mkTask "run" "Run" (ofZ 10) None None allDays [] true.

Definition taskRunAgain : Task :=
  mkTask "run" "run!" (ofZ 5) None None allDays
         [mkSubtask "run_x" "x" None] true.

(** The instances of a Monday for [duplicateIdCsv]. *)
Definition duplicateIdInstances : list TaskInstance :=
  generateTodayInstances (parseMasterTasks [] duplicateIdCsv) 1.

(** A task of 9 points with three subtask rows, two of the same name. *)
Definition repeatedSubtaskCsv : string :=
  csvOfLines [headerLine; "A,,9,,,,all,,,,,TRUE"; ",x"; ",x"; ",y"].

(** Its instances of a Monday, after the box of subtask [a_x] is
    checked. *)
Definition repeatedSubtaskInstances : list TaskInstance :=
  handleSubtaskToggle
    (generateTodayInstances (parseMasterTasks [] repeatedSubtaskCsv) 1)
    "a" "a_x" true.

(** A task row with a negative points field, and a subtask row whose
    sub-points field is not a number. *)
Definition negativePointsCsv : string :=
  csvOfLines [headerLine; "T,,-5"; ",s,,abc"].

(** A task named with an underscore and its subtask [proto__]: the id of
    the subtask is [__proto__]. *)
Definition protoCsv : string :=
  csvOfLines [headerLine; "_,,10,,,,all,,,,,TRUE"; ",proto__"].

(** Its instances of a Monday. *)
Definition protoInstances : list TaskInstance :=
  generateTodayInstances (parseMasterTasks [] protoCsv) 1.

(** What is read off an instance in the examples: the number of subtasks
    of its task, its [completed] flag and the entries of
    [subtaskCompletion]. *)
Definition snapshot (inst : TaskInstance) : nat * bool * list (string * bool) :=
  (length (subtasks (task inst)), completed inst,
   map_to_list (subtaskCompletion inst)).

(** * Further parts of the program *)

(** ** More string operations *)

(** [s.substring(n)] *)
Fixpoint dropChars (n : nat) (s : string) : string :=
  match n, s with
  | O, _ => s
  | S n', String _ r => dropChars n' r
  | S _, EmptyString => EmptyString
  end.

(** [pat] is found at the start of [s]. *)
Fixpoint startsWith (pat s : string) : bool :=
  match pat with
  | EmptyString => true
  | String a pat' =>
      match s with
      | String b s' => Ascii.eqb a b && startsWith pat' s'
      | EmptyString => false
      end
  end.

(** [s.includes(pat)] *)
Fixpoint includes (pat s : string) : bool :=
  if startsWith pat s then true
  else
    match s with
    | String _ r => includes pat r
    | EmptyString => false
    end.

(** [s.replace(pat, rep)] for a string pattern and a replacement without
    dollar sign: the first occurrence is replaced. *)
Fixpoint replaceFirst (pat rep s : string) : string :=
  if startsWith pat s then rep +:+ dropChars (String.length pat) s
  else
    match s with
    | String c r => String c (replaceFirst pat rep r)
    | EmptyString => EmptyString
    end.

Fixpoint takeWhileChars (keep : ascii -> bool) (s : string) : string :=
  match s with
  | String c r => if keep c then String c (takeWhileChars keep r) else EmptyString
  | EmptyString => EmptyString
  end.

(** The capture of a regular expression made of the literal [lit] followed
    by a group of one or more units of a class: the leftmost place where
    the literal is followed by a unit of the class, and there the longest
    run of such units. *)
Fixpoint matchAfter (lit : string) (keep : ascii -> bool) (s : string)
    : option string :=
  let here :=
    if startsWith lit s then
      match takeWhileChars keep (dropChars (String.length lit) s) with
      | EmptyString => None
      | capture => Some capture
      end
    else None in
  match here with
  | Some capture => Some capture
  | None =>
      match s with
      | String _ r => matchAfter lit keep r
      | EmptyString => None
      end
  end.

(** The class [[a-zA-Z0-9-_]]. *)
Definition isSheetIdChar (c : ascii) : bool :=
  let n := code c in
  ((97 <=? n) && (n <=? 122) || (65 <=? n) && (n <=? 90)
   || (48 <=? n) && (n <=? 57) || (n =? 45) || (n =? 95))%N.

(** ** Normalisation of the sheet address *)

(** A returned value or a thrown [Error] with its message. *)
Inductive Outcome (A : Type) : Type :=
| Returned (value : A)
| Thrown (message : string).

Arguments Returned {A} value.
Arguments Thrown {A} message.

Definition invalidUrlMessage : string :=
  "Invalid or unsupported Google Sheet URL. Please use the 'Share' link or the 'Publish to web' CSV link.".

(** The template string of the export link. *)
Definition exportUrl (sheetId gid : string) : string :=
  "https://docs.google.com/spreadsheets/d/" +:+ sheetId
  +:+ "/export?format=csv&gid=" +:+ gid.

(** [getCsvUrl] *)
Definition getCsvUrl (url : string) : Outcome string :=
  if includes "/pub?output=csv" url then Returned url
  else if includes "/pubhtml" url then
    Returned (replaceFirst "/pubhtml" "/pub?output=csv" url)
  else
    match matchAfter "spreadsheets/d/" isSheetIdChar url with
    | Some sheetId =>
        let gid :=
          match matchAfter "gid=" isDigit url with
          | Some g => g
          | None => "0"
          end in
        Returned (exportUrl sheetId gid)
    | None => Thrown invalidUrlMessage
    end.

(** Every unit of [s] is kept by [keep]. *)
Fixpoint allChars (keep : ascii -> bool) (s : string) : bool :=
  match s with
  | String c r => keep c && allChars keep r
  | EmptyString => true
  end.

(** The literal [lit] followed by a unit of the class is found at the start
    of [s]. *)
Definition matchesHere (lit : string) (keep : ascii -> bool) (s : string) : bool :=
  startsWith lit s
  && match dropChars (String.length lit) s with
     | String c _ => keep c
     | EmptyString => false
     end.

(** In [a +:+ rest], no place inside [a] passes [test]: what starts at the
    end of [a] is the leftmost place that can. *)
Definition leftmost (test : string -> bool) (a rest : string) : Prop :=
  forall a1 a2, a = a1 +:+ a2 -> a2 <> EmptyString -> test (a2 +:+ rest) = false.

(** The unit [c] does not occur in [s]. *)
Definition noChar (c : ascii) (s : string) : bool :=
  allChars (fun x => negb (Ascii.eqb x c)) s.

(** A field as [columnsOf] delivers it: trimmed, without comma and without
    double quote. *)
Definition cleanField (s : string) : Prop :=
  trim s = s /\ noChar comma s = true /\ noChar dquote s = true.

(** After [trimStart] the string is empty or starts with a unit that is
    not a blank; [trimEnd] keeps this. *)
Definition startsPlain (s : string) : Prop :=
  match s with
  | String c _ => isWhiteSpace c = false
  | EmptyString => True
  end.

(** The text of a sheet, given by what is written in it: the header line
    and the rows, a row being the list of its fields. The fields of a row
    are joined by commas and the lines by line feeds. *)
Definition joinFields (fields : list string) : string :=
  String.concat (String comma EmptyString) fields.

Definition sheetText (header : string) (rows : list (list string)) : string :=
  String.concat (String LF EmptyString) (header :: map joinFields rows).

(** A field as written holds no comma and no line feed. *)
Definition rawField (field : string) : Prop :=
  noChar comma field = true ∧ noChar LF field = true.

(** The name read from a field: double quotes deleted, blanks at both
    ends removed. *)
Definition nameOfField (field : string) : string :=
  trim (removeQuotes field).

(** The kind of a row, by its fields: a task row when the name in the
    first field is not empty; otherwise a subtask row when the name in
    the second field is not empty; otherwise a skipped row. *)
Definition rowOfFields (fields : list string) : Row :=
  let columns := map nameOfField fields in
  match nonEmpty (columns !! 0%nat) with
  | Some taskName => TaskRow taskName columns
  | None =>
      match nonEmpty (columns !! 1%nat) with
      | Some subtaskName => SubtaskRow subtaskName columns
      | None => SkippedRow
      end
  end.

(** Two lines that are equal, or differ by a carriage return at the end
    of the first. *)
Definition sameLine (line read : string) : Prop :=
  read = line ∨ line = read +:+ String CR EmptyString.

(** [t] appended to the last string of a list. *)
Fixpoint appendLast (t : string) (pieces : list string) : list string :=
  match pieces with
  | [] => []
  | [p] => [p +:+ t]
  | p :: rest => p :: appendLast t rest
  end.

(** [Number.isFinite(x)] *)
Definition isFinite (x : number) : bool :=
  match x with
  | S754_zero _ | S754_finite _ _ _ => true
  | S754_infinity _ | S754_nan => false
  end.

(** An instance of a task worth five points, ticked. *)
Definition tickedInstance : TaskInstance :=
  mkTaskInstance "walk"
    (mkTask "walk" "Walk" (ofZ 5) None None allDays [] true) true ∅.

(** A change event of a checkbox of the page: the call made by the
    listener that [createTaskElement] or [createSubtaskElement] puts on
    the box. *)
Inductive Action : Type :=
  | TaskChange (instanceId : string) (isChecked : bool)
  | SubtaskChange (instanceId subtaskId : string) (isChecked : bool).

Definition actionInstance (a : Action) : string :=
  match a with
  | TaskChange instanceId _ => instanceId
  | SubtaskChange instanceId _ _ => instanceId
  end.

Definition perform (todayInstances : list TaskInstance) (a : Action)
    : list TaskInstance :=
  match a with
  | TaskChange instanceId isChecked =>
      handleTaskToggle todayInstances instanceId isChecked
  | SubtaskChange instanceId subtaskId isChecked =>
      handleSubtaskToggle todayInstances instanceId subtaskId isChecked
  end.

Definition performAll (todayInstances : list TaskInstance)
    (actions : list Action) : list TaskInstance :=
  fold_left perform actions todayInstances.

(** What an event does to the instance it finds. *)
Definition effect (a : Action) : TaskInstance → TaskInstance :=
  match a with
  | TaskChange _ isChecked => toggleTask isChecked
  | SubtaskChange _ subtaskId isChecked => toggleSubtask subtaskId isChecked
  end.

(** Two events on different instances, or on different subtask boxes. *)
Definition independent (a1 a2 : Action) : Prop :=
  actionInstance a1 ≠ actionInstance a2
  ∨ match a1, a2 with
    | SubtaskChange _ s1 _, SubtaskChange _ s2 _ => s1 ≠ s2
    | _, _ => False
    end.

(** The task box and the subtask boxes of an instance agree: the instance
    has no subtask box, or it is completed exactly when every subtask box
    is ticked. *)
Definition boxesAgree (inst : TaskInstance) : Prop :=
  subtaskCompletion inst = ∅
  ∨ completed inst
    = forallb (fun b : bool => b) (objectValues (subtaskCompletion inst)).

(** A catalog of one task with two subtasks, active every day. *)
Definition walkCatalog : list Task :=
  [mkTask "walk" "Walk" (ofZ 5) None None allDays
     [mkSubtask "walk_out" "Out" None; mkSubtask "walk_back" "Back" None]
     true].

(** ** Page state and sheet loader *)

(** The part of the program state that the loader reads and writes: the
    two arrays, the [hidden] class of the all-done banner, the value of
    the URL input, the four properties written by [setLoaderState], and
    the item of [localStorage] under [GOOGLE_SHEET_URL_KEY]. The children
    of the task list and the texts of the progress ring are not part of
    it. *)
Record LoaderState : Type := mkLoaderState {
  statusText : string;
  statusClass : string;
  buttonDisabled : bool;
  buttonText : string
}.

Record App : Type := mkApp {
  app_masterTasks : list Task;
  app_todayInstances : list TaskInstance;
  allDoneHidden : bool;
  sheetUrlInput : string;
  loader : LoaderState;
  savedUrl : option string
}.

(** A promise that has settled. The reason of a rejection is kept as the
    message of the error, [None] when it is not an [Error]. *)
Inductive Settled (A : Type) : Type :=
  | Fulfilled (value : A)
  | Rejected (reason : option string).
Arguments Fulfilled {A} value.
Arguments Rejected {A} reason.

Record Response : Type := mkResponse {
  response_ok : bool;
  response_status : nat;
  response_text : Settled string
}.

(** What the program asks of the browser: whether building the element
    of an instance throws (the markup is parsed by the browser, and the
    node looked up in it may be missing), what [fetch] gives for a URL,
    and [new Date().getDay()]. Reads and writes of [localStorage] are
    taken to succeed. *)
Record Browser : Type := mkBrowser {
  createTaskElementThrows : TaskInstance -> option string;
  fetch : string -> Settled Response;
  today_getDay : Date
}.

(** The decimal digits of a non-negative integer in a template literal. *)
Definition decimal (n : nat) : string :=
  NilZero.string_of_uint (Nat.to_uint n).

(** [setLoaderState]: all four properties are overwritten. *)
Definition setLoaderState (message : string) (isError isLoading : bool)
    : LoaderState :=
  mkLoaderState message
                (if isError then "error" else "success")
                isLoading
                (if isLoading then "Loading..." else "Load Tasks").

Definition withLoader (l : LoaderState) (app : App) : App :=
  mkApp (app_masterTasks app) (app_todayInstances app) (allDoneHidden app)
        (sheetUrlInput app) l (savedUrl app).

Definition withMasterTasks (tasks : list Task) (app : App) : App :=
  mkApp tasks (app_todayInstances app) (allDoneHidden app)
        (sheetUrlInput app) (loader app) (savedUrl app).

Definition withTodayInstances (instances : list TaskInstance) (app : App)
    : App :=
  mkApp (app_masterTasks app) instances (allDoneHidden app)
        (sheetUrlInput app) (loader app) (savedUrl app).

Definition withAllDoneHidden (hidden : bool) (app : App) : App :=
  mkApp (app_masterTasks app) (app_todayInstances app) hidden
        (sheetUrlInput app) (loader app) (savedUrl app).

Definition withSheetUrlInput (value : string) (app : App) : App :=
  mkApp (app_masterTasks app) (app_todayInstances app) (allDoneHidden app)
        value (loader app) (savedUrl app).

Definition withSavedUrl (saved : option string) (app : App) : App :=
  mkApp (app_masterTasks app) (app_todayInstances app) (allDoneHidden app)
        (sheetUrlInput app) (loader app) saved.

(** The last statement of [updateProgress], on the banner. *)
Definition updateProgressBanner (app : App) : App :=
  withAllDoneHidden (negb (allDone (updateProgress (app_todayInstances app))))
                    app.

(** The [forEach] of [render]: the message of the first exception. *)
Fixpoint appendTaskElements (browser : Browser)
    (instances : list TaskInstance) : option string :=
  match instances with
  | [] => None
  | inst :: rest =>
      match createTaskElementThrows browser inst with
      | Some message => Some message
      | None => appendTaskElements browser rest
      end
  end.

(** [render]: the state it leaves, and the message of the exception when
    it throws. *)
Definition render (browser : Browser) (app : App) : App * option string :=
  if (length (app_todayInstances app) =? 0)%nat
     && (0 <? length (app_masterTasks app))%nat
  then (updateProgressBanner (withAllDoneHidden false app), None)
  else
    let app := withAllDoneHidden true app in
    match appendTaskElements browser (app_todayInstances app) with
    | Some message => (app, Some message)
    | None => (updateProgressBanner app, None)
    end.

Definition fetchFailedMessage (status : nat) : string :=
  "Failed to fetch data. Status: " +:+ decimal status
  +:+ ". Ensure the sheet is public ('Anyone with link') or published.".

Definition loadedMessage (count : nat) : string :=
  "Successfully loaded " +:+ decimal count +:+ " tasks!".

(** The [catch] block of [loadTasksFromUrl]. *)
Definition catchLoad (reason : option string) (app : App) : App :=
  let errorMessage :=
    match reason with
    | Some message => message
    | None => "An unknown error occurred."
    end in
  withSavedUrl None
    (withLoader (setLoaderState ("Error: " +:+ errorMessage) true false) app).

(** [loadTasksFromUrl]: the state when its promise has settled. *)
Definition loadTasksFromUrl (browser : Browser) (sheetUrl : string)
    (app : App) : App :=
  let app := withLoader (setLoaderState "Loading tasks..." false true) app in
  let app := withMasterTasks [] app in
  let app := withTodayInstances [] app in
  match render browser app with
  | (app, Some _) => app
  | (app, None) =>
      match getCsvUrl sheetUrl with
      | Thrown message => catchLoad (Some message) app
      | Returned csvUrl =>
          match fetch browser csvUrl with
          | Rejected reason => catchLoad reason app
          | Fulfilled response =>
              if negb (response_ok response) then
                catchLoad
                  (Some (fetchFailedMessage (response_status response))) app
              else
                match response_text response with
                | Rejected reason => catchLoad reason app
                | Fulfilled csvData =>
                    let app :=
                      withMasterTasks
                        (parseMasterTasks (app_masterTasks app) csvData) app in
                    let app :=
                      withTodayInstances
                        (generateTodayInstances (app_masterTasks app)
                                                (today_getDay browser)) app in
                    match render browser app with
                    | (app, Some message) => catchLoad (Some message) app
                    | (app, None) =>
                        let app := withSavedUrl (Some sheetUrl) app in
                        withLoader
                          (setLoaderState
                             (loadedMessage (length (app_masterTasks app)))
                             false false)
                          app
                    end
                end
          end
      end
  end.

(** [handleLoadSheetClick] *)
Definition handleLoadSheetClick (browser : Browser) (app : App) : App :=
  let url := trim (sheetUrlInput app) in
  if truthyString (Some url) then loadTasksFromUrl browser url app else app.

(** [loadInitialData] *)
Definition loadInitialData (browser : Browser) (app : App) : App :=
  if truthyString (savedUrl app) then
    match savedUrl app with
    | Some saved =>
        loadTasksFromUrl browser saved (withSheetUrlInput saved app)
    | None => app
    end
  else app.

(** The load came to its end without an exception. *)
Definition loadSucceeded (app : App) : Prop :=
  statusClass (loader app) = "success" ∧ buttonDisabled (loader app) = false.

(** A browser that answers every request with a sheet of one task. *)
Definition walkSheet : string :=
  csvOfLines [headerLine; "Walk,,5,,,,,,,,,TRUE"].

Definition walkBrowser : Browser :=
  mkBrowser (fun _ => None)
            (fun _ => Fulfilled (mkResponse true 200 (Fulfilled walkSheet)))
            1%nat.

Definition blankApp : App :=
  mkApp [] [] true "" (mkLoaderState "" "" false "Load Tasks") None.

(** * Properties *)

(** ** Facts on objects used as maps *)

Section ObjectFacts.
Implicit Types (o : gmap string bool) (k : string) (b : bool).

Lemma elem_of_objectKeys o k : k ∈ objectKeys o ↔ is_Some (o !! k).
Proof.
  unfold objectKeys. rewrite list_elem_of_fmap. split.
  - intros [[k' v] [-> Hin]]. apply elem_of_map_to_list in Hin. eauto.
  - intros [v Hv]. exists (k, v). split; [done|]. by apply elem_of_map_to_list.
Qed.

Lemma elem_of_objectValues o b : b ∈ objectValues o ↔ ∃ k, o !! k = Some b.
Proof.
  unfold objectValues. rewrite list_elem_of_fmap. split.
  - intros [[k v] [-> Hin]]. apply elem_of_map_to_list in Hin. eauto.
  - intros [k Hk]. exists (k, b). split; [done|]. by apply elem_of_map_to_list.
Qed.

Lemma assign_insert k b o :
  takesAssignment o k → assign k b o = <[k := b]> o.
Proof.
  unfold takesAssignment, assign. intros [Hne|[v Hv]].
  - destruct (o !! k); [done|].
    destruct (String.eqb_spec k protoKey); done.
  - by rewrite Hv.
Qed.

Lemma assign_ignored k b o :
  ¬ takesAssignment o k → assign k b o = o.
Proof.
  unfold takesAssignment, assign. intros Hnot.
  destruct (o !! k) as [v|] eqn:Hk; [destruct Hnot; right; eauto|].
  destruct (String.eqb_spec k protoKey) as [_|Hne]; [done|].
  destruct Hnot. by left.
Qed.

Lemma lookup_assign k' b o k :
  assign k' b o !! k
  = if decide (k = k' ∧ takesAssignment o k') then Some b else o !! k.
Proof.
  destruct (decide (takesAssignment o k')) as [Htakes|Hnot].
  - rewrite assign_insert by done.
    destruct (decide (k = k')) as [->|Hne].
    + rewrite lookup_insert_eq. by rewrite decide_True.
    + rewrite lookup_insert_ne by done. rewrite decide_False; [done|].
      by intros [? _].
  - rewrite assign_ignored by done. rewrite decide_False; [done|].
    by intros [_ ?].
Qed.

(** An assignment does not change which keys take an assignment. *)
Lemma takesAssignment_assign k' b o k :
  takesAssignment (assign k' b o) k ↔ takesAssignment o k.
Proof.
  unfold takesAssignment. rewrite lookup_assign.
  destruct (decide (k = k' ∧ takesAssignment o k')) as [[-> Htakes]|Hnot].
  - split; [intros _; exact Htakes|]. intros [?|_]; [by left|right; eauto].
  - done.
Qed.

Lemma dom_assign k b o :
  dom (assign k b o)
  = if decide (takesAssignment o k) then {[k]} ∪ dom o else dom o.
Proof.
  destruct (decide (takesAssignment o k)) as [Htakes|Hnot].
  - rewrite assign_insert by done. apply dom_insert_L.
  - by rewrite assign_ignored.
Qed.

Lemma assign_twice k b1 b2 o :
  assign k b2 (assign k b1 o) = assign k b2 o.
Proof.
  apply map_eq. intros k'. rewrite !lookup_assign.
  destruct (decide (k' = k ∧ takesAssignment (assign k b1 o) k))
    as [[-> Htakes]|Hnot].
  - apply takesAssignment_assign in Htakes.
    destruct (decide _) as [_|Hnot]; [done|]. by destruct Hnot.
  - destruct (decide (k' = k ∧ takesAssignment o k)) as [[-> Htakes]|_];
      [|done].
    destruct Hnot. split; [done|]. by apply takesAssignment_assign.
Qed.

Lemma assign_commute k1 k2 b1 b2 o :
  k1 ≠ k2 →
  assign k2 b2 (assign k1 b1 o) = assign k1 b1 (assign k2 b2 o).
Proof.
  intros Hne. apply map_eq. intros k. rewrite !lookup_assign.
  pose proof (takesAssignment_assign k2 b2 o k1) as T1.
  pose proof (takesAssignment_assign k1 b1 o k2) as T2.
  repeat case_decide; try done; exfalso.
  all: repeat match goal with
              | H : _ ∧ _ |- _ => destruct H
              end; subst; tauto.
Qed.

(** Assigning [b] to each key of a list of own keys, one after the
    other. *)
Lemma lookup_assign_all (ks : list string) o b k :
  (∀ k', k' ∈ ks → is_Some (o !! k')) →
  fold_left (fun o' subId => assign subId b o') ks o !! k
  = if decide (k ∈ ks) then Some b else o !! k.
Proof.
  revert o. induction ks as [|k0 ks IH]; intros o Hown; cbn [fold_left].
  - destruct (decide (k ∈ [])) as [Hin|_]; [by apply elem_of_nil in Hin|done].
  - assert (is_Some (o !! k0)) as Hk0 by (apply Hown, elem_of_cons; by left).
    rewrite (assign_insert k0 b o) by (by right).
    rewrite IH.
    + destruct (decide (k ∈ ks)) as [Hin|Hnin].
      * rewrite decide_True; [done|apply elem_of_cons; by right].
      * destruct (decide (k = k0)) as [->|Hne].
        -- rewrite lookup_insert_eq.
           rewrite decide_True; [done|apply elem_of_cons; by left].
        -- rewrite lookup_insert_ne by done. rewrite decide_False; [done|].
           intros Hin. apply elem_of_cons in Hin as [?|?]; done.
    + intros k' Hk'. destruct (decide (k' = k0)) as [->|Hne].
      * rewrite lookup_insert_eq. eauto.
      * rewrite lookup_insert_ne by done. apply Hown, elem_of_cons. by right.
Qed.

(** A read of an own key gives the stored flag; a read of a name that is
    neither an own key nor a property name of [Object.prototype] gives
    false. *)
Lemma flagOf_own o k b : o !! k = Some b → flagOf o k = b.
Proof. unfold flagOf. by intros ->. Qed.

Lemma flagOf_missing o k :
  o !! k = None → flagOf o k = bool_decide (k ∈ prototypeKeys).
Proof. unfold flagOf. by intros ->. Qed.

Lemma forallb_objectValues o :
  forallb (fun b : bool => b) (objectValues o) = true
  ↔ ∀ k v, o !! k = Some v → v = true.
Proof.
  rewrite forallb_forall. split.
  - intros H k v Hk. apply H. apply list_elem_of_In, elem_of_objectValues. eauto.
  - intros H v Hv. apply list_elem_of_In, elem_of_objectValues in Hv as [k Hk]. eauto.
Qed.
End ObjectFacts.

(** ** The toggle handlers *)

Section Toggles.
Implicit Types (inst : TaskInstance) (instances pre post : list TaskInstance).

Lemma toggleTask_lookup isChecked inst k :
  subtaskCompletion (toggleTask isChecked inst) !! k
  = (fun _ => isChecked) <$> subtaskCompletion inst !! k.
Proof.
  unfold toggleTask; cbn [subtaskCompletion].
  rewrite lookup_assign_all by (intros k' Hk'; by apply elem_of_objectKeys).
  destruct (decide (k ∈ objectKeys (subtaskCompletion inst))) as [Hin|Hnin].
  - apply elem_of_objectKeys in Hin as [v ->]. done.
  - destruct (subtaskCompletion inst !! k) as [v|] eqn:Hk; [|done].
    exfalso. apply Hnin, elem_of_objectKeys. eauto.
Qed.

(** The loop of [handleTaskToggle] writes the same flag on every key and
    creates none. *)
Lemma toggleTask_fmap isChecked inst :
  subtaskCompletion (toggleTask isChecked inst)
  = (fun _ => isChecked) <$> subtaskCompletion inst.
Proof. apply map_eq; intros k. by rewrite toggleTask_lookup, lookup_fmap. Qed.

Lemma toggleSubtask_completed_false subtaskId inst :
  takesAssignment (subtaskCompletion inst) subtaskId →
  completed (toggleSubtask subtaskId false inst) = false.
Proof.
  intros Htakes. unfold toggleSubtask; cbn [completed].
  apply not_true_is_false. intros H.
  rewrite forallb_objectValues in H.
  specialize (H subtaskId false). rewrite assign_insert, lookup_insert_eq in H by done.
  by specialize (H eq_refl).
Qed.

Lemma findIndex_app_first pre target post instanceId :
  Forall (fun i => inst_id i ≠ instanceId) pre →
  inst_id target = instanceId →
  findIndex instanceId (pre ++ target :: post) = Some (length pre).
Proof.
  intros Hpre Htarget. induction Hpre as [|i pre Hi _ IH]; cbn.
  - apply String.eqb_eq in Htarget. by rewrite Htarget.
  - apply String.eqb_neq in Hi. rewrite Hi, IH. done.
Qed.

Lemma findIndex_None instanceId instances :
  findIndex instanceId instances = None ↔
  Forall (fun i => inst_id i ≠ instanceId) instances.
Proof.
  induction instances as [|i rest IH]; cbn; [by split; [constructor|]|].
  destruct (String.eqb_spec (inst_id i) instanceId) as [Heq|Hne].
  - split; [done|]. intros H. by inversion H.
  - destruct (findIndex instanceId rest); cbn.
    + split; [done|]. intros H. inversion H; subst. by apply IH in H3.
    + split; [|done]. intros _. constructor; [done|]. by apply IH.
Qed.

Lemma alter_middle (f : TaskInstance → TaskInstance) pre target post :
  alter f (length pre) (pre ++ target :: post) = pre ++ f target :: post.
Proof. induction pre as [|i pre IH]; cbn; [done|]. by f_equal. Qed.
End Toggles.

(** Each handler acts on the first instance that has the id. *)
Lemma handleTaskToggle_first pre target post instanceId isChecked :
  Forall (fun i => inst_id i ≠ instanceId) pre →
  inst_id target = instanceId →
  handleTaskToggle (pre ++ target :: post) instanceId isChecked
  = pre ++ toggleTask isChecked target :: post.
Proof.
  intros Hpre Htarget. unfold handleTaskToggle.
  rewrite (findIndex_app_first _ _ _ _ Hpre Htarget). apply alter_middle.
Qed.

Lemma handleSubtaskToggle_first pre target post instanceId subtaskId isChecked :
  Forall (fun i => inst_id i ≠ instanceId) pre →
  inst_id target = instanceId →
  handleSubtaskToggle (pre ++ target :: post) instanceId subtaskId isChecked
  = pre ++ toggleSubtask subtaskId isChecked target :: post.
Proof.
  intros Hpre Htarget. unfold handleSubtaskToggle.
  rewrite (findIndex_app_first _ _ _ _ Hpre Htarget). apply alter_middle.
Qed.

(** Checking the task of the first instance with an id and then unchecking
    one of its subtasks, through the handlers. *)
Lemma handlers_check_then_uncheck pre target post subtaskId :
  Forall (fun i => inst_id i ≠ inst_id target) pre →
  handleSubtaskToggle
    (handleTaskToggle (pre ++ target :: post) (inst_id target) true)
    (inst_id target) subtaskId false
  = pre ++ toggleSubtask subtaskId false (toggleTask true target) :: post.
Proof.
  intros Hpre. rewrite handleTaskToggle_first by done.
  by rewrite handleSubtaskToggle_first.
Qed.

(** C10. When several instances share an id, [handleTaskToggle] and
    [handleSubtaskToggle] act on the first instance of the list that has
    the id: the instances before it do not have the id, and every
    instance after it, duplicates of the id included, is left as it was. *)
Theorem toggles_hit_first_match pre target post instanceId subtaskId isChecked :
  Forall (fun i => inst_id i ≠ instanceId) pre →
  inst_id target = instanceId →
  handleTaskToggle (pre ++ target :: post) instanceId isChecked
    = pre ++ toggleTask isChecked target :: post
  ∧ handleSubtaskToggle (pre ++ target :: post) instanceId subtaskId isChecked
    = pre ++ toggleSubtask subtaskId isChecked target :: post.
Proof.
  intros Hpre Htarget. split.
  - by apply handleTaskToggle_first.
  - by apply handleSubtaskToggle_first.
Qed.

(** C4. For an instance whose task has the subtask [sub]: after
    [toggleTask] with [true] the instance is completed and every entry of
    [subtaskCompletion] is true, the entry of [sub] included when the keys
    are the subtask ids; a following [toggleSubtask] with [false] on
    [sub] makes [completed] false again when the id of [sub] takes an
    assignment, that is for every id but [__proto__]. [toggleSubtask]
    always sets [completed] to the conjunction of all entries of
    [subtaskCompletion]. The two handlers, called with the id of the
    instance, do exactly this to the instance when no instance before it
    in the list has its id.
    For a subtask whose id is [__proto__] the claim fails: on the
    instances of [protoCsv], whose one task has the one subtask
    [__proto__], no flag is stored for the subtask, and after the task
    box is ticked and the subtask box is unticked the instance is still
    completed. *)
Theorem toggleTask_then_uncheck_one :
  (∀ inst sub,
     sub ∈ subtasks (task inst) →
     completed (toggleTask true inst) = true
     ∧ (∀ k v, subtaskCompletion (toggleTask true inst) !! k = Some v → v = true)
     ∧ (keysMatch inst →
        subtaskCompletion (toggleTask true inst) !! sub_id sub = Some true)
     ∧ (takesAssignment (subtaskCompletion inst) (sub_id sub) →
        completed (toggleSubtask (sub_id sub) false (toggleTask true inst))
        = false)
     ∧ (∀ subtaskId isChecked i,
          completed (toggleSubtask subtaskId isChecked i)
          = forallb (fun b : bool => b)
              (objectValues
                 (subtaskCompletion (toggleSubtask subtaskId isChecked i))))
     ∧ (∀ pre post,
          Forall (fun i => inst_id i ≠ inst_id inst) pre →
          handleSubtaskToggle
            (handleTaskToggle (pre ++ inst :: post) (inst_id inst) true)
            (inst_id inst) (sub_id sub) false
          = pre ++ toggleSubtask (sub_id sub) false (toggleTask true inst)
                :: post))
  ∧ map (fun inst => (inst_id inst, map sub_id (subtasks (task inst))))
        protoInstances
    = [("_", ["__proto__"])]
  ∧ map snapshot protoInstances = [(1%nat, false, [])]
  ∧ map snapshot
        (handleSubtaskToggle (handleTaskToggle protoInstances "_" true)
                             "_" "__proto__" false)
    = [(1%nat, true, [])].
Proof.
  split; [|by vm_compute].
  intros inst sub Hsub. split; [done|]. split; [|split; [|split; [|split]]].
  - intros k v. rewrite toggleTask_lookup.
    destruct (subtaskCompletion inst !! k); cbn; congruence.
  - intros Hkeys. rewrite toggleTask_lookup.
    assert (sub_id sub ∈ dom (subtaskCompletion inst)) as Hdom.
    { rewrite Hkeys. apply elem_of_list_to_set, list_elem_of_fmap. eauto. }
    apply elem_of_dom in Hdom as [v ->]. done.
  - intros Htakes. apply toggleSubtask_completed_false.
    destruct Htakes as [Hne|[v Hv]]; [by left|right].
    rewrite toggleTask_lookup, Hv. eauto.
  - done.
  - intros pre post Hpre. by apply handlers_check_then_uncheck.
Qed.

(** ** The key set of [subtaskCompletion] *)

Lemma lookup_init_flags (subs : list Subtask) (o : gmap string bool) k :
  fold_left (fun acc sub => assign (sub_id sub) false acc) subs o !! k
  = if decide (k ∈ map sub_id subs ∧ takesAssignment o k)
    then Some false else o !! k.
Proof.
  revert o. induction subs as [|s subs IH]; intros o; cbn [fold_left map].
  - case_decide as Hin; [|done]. destruct Hin as [Hin _].
    by apply elem_of_nil in Hin.
  - rewrite IH, lookup_assign.
    destruct (decide (k ∈ sub_id s :: map sub_id subs ∧ takesAssignment o k))
      as [[Hin Htakes]|Hall].
    + destruct (decide (k ∈ map sub_id subs
                        ∧ takesAssignment (assign (sub_id s) false o) k))
        as [_|Hrest]; [done|].
      destruct (decide (k = sub_id s ∧ takesAssignment o (sub_id s)))
        as [_|Hhead]; [done|]. exfalso.
      apply elem_of_cons in Hin as [->|Hin].
      * by apply Hhead.
      * apply Hrest. split; [done|]. by apply takesAssignment_assign.
    + destruct (decide (k ∈ map sub_id subs
                        ∧ takesAssignment (assign (sub_id s) false o) k))
        as [[Hin Htakes]|_].
      { exfalso. apply takesAssignment_assign in Htakes.
        apply Hall. split; [apply elem_of_cons; by right|done]. }
      destruct (decide (k = sub_id s ∧ takesAssignment o (sub_id s)))
        as [[-> Htakes]|_]; [|done].
      exfalso. apply Hall. split; [apply elem_of_cons; by left|done].
Qed.

(** The keys of a new instance are the subtask ids other than
    [__proto__]. *)
Lemma elem_of_dom_newInstance (t : Task) k :
  k ∈ dom (subtaskCompletion (newInstance t))
  ↔ k ∈ map sub_id (subtasks t) ∧ k ≠ protoKey.
Proof.
  unfold newInstance; cbn [subtaskCompletion].
  rewrite elem_of_dom, lookup_init_flags.
  assert (takesAssignment (∅ : gmap string bool) k ↔ k ≠ protoKey) as Htakes.
  { unfold takesAssignment. rewrite lookup_empty. split; [|by left].
    intros [?|[v Hv]]; done. }
  destruct (decide _) as [[Hin Hk]|Hnot].
  - split; [|eauto]. intros _. split; [done|]. by apply Htakes.
  - rewrite lookup_empty. split; [by intros [v Hv]|].
    intros [Hin Hne]. destruct Hnot. split; [done|]. by apply Htakes.
Qed.

Lemma keysMatch_newInstance t :
  protoKey ∉ map sub_id (subtasks t) → keysMatch (newInstance t).
Proof.
  intros Hproto. unfold keysMatch. apply leibniz_equiv. intros k.
  rewrite elem_of_dom_newInstance, elem_of_list_to_set.
  cbn [task newInstance]. split; [by intros [? _]|].
  intros Hin. split; [done|]. by intros ->.
Qed.

Lemma keysMatch_toggleTask isChecked inst :
  keysMatch inst → keysMatch (toggleTask isChecked inst).
Proof.
  unfold keysMatch. intros H. rewrite toggleTask_fmap, dom_fmap_L. exact H.
Qed.

Lemma dom_toggleSubtask subtaskId isChecked inst :
  dom (subtaskCompletion (toggleSubtask subtaskId isChecked inst))
  = if decide (takesAssignment (subtaskCompletion inst) subtaskId)
    then {[subtaskId]} ∪ dom (subtaskCompletion inst)
    else dom (subtaskCompletion inst).
Proof. unfold toggleSubtask; cbn [subtaskCompletion]. apply dom_assign. Qed.

Lemma keysMatch_toggleSubtask subtaskId isChecked inst :
  keysMatch inst →
  subtaskId ∈ map sub_id (subtasks (task inst)) →
  keysMatch (toggleSubtask subtaskId isChecked inst).
Proof.
  unfold keysMatch. intros Hinv Hin. rewrite dom_toggleSubtask.
  destruct (decide _) as [_|_]; [|done]. rewrite Hinv.
  cbn [task toggleSubtask]. apply leibniz_equiv. intros k.
  rewrite elem_of_union, elem_of_singleton, !elem_of_list_to_set.
  split; [intros [->|?]; done|by right].
Qed.

(** [toggleSubtask] with an id that is not the id of a subtask, and is
    not [__proto__], adds this id to the keys. *)
Lemma toggleSubtask_adds_key subtaskId isChecked inst :
  subtaskId ≠ protoKey →
  dom (subtaskCompletion (toggleSubtask subtaskId isChecked inst))
  = {[subtaskId]} ∪ dom (subtaskCompletion inst).
Proof.
  intros Hne. rewrite dom_toggleSubtask, decide_True; [done|]. by left.
Qed.

Lemma keysMatch_lost subtaskId isChecked inst :
  keysMatch inst →
  subtaskId ∉ map sub_id (subtasks (task inst)) →
  subtaskId ≠ protoKey →
  ¬ keysMatch (toggleSubtask subtaskId isChecked inst).
Proof.
  unfold keysMatch. intros Hinv Hnin Hne Hkeys.
  rewrite toggleSubtask_adds_key in Hkeys by done.
  cbn [task toggleSubtask] in Hkeys. apply Hnin.
  apply (elem_of_list_to_set (C := gset string)). rewrite <- Hkeys.
  apply elem_of_union_l, elem_of_singleton. done.
Qed.

(** C8, amended. The keys of [subtaskCompletion] are exactly the ids of
    the subtasks of the task when the instance is created, for a task
    none of whose subtasks has the id [__proto__]; [toggleTask] keeps
    this for any flag; [toggleSubtask] keeps it when the id it is given
    is the id of a subtask of the task of the instance; and
    [toggleSubtask] given any other id, [__proto__] left aside, adds this
    id as a key that is the id of no subtask. *)
Theorem keysMatch_preserved inst subtaskId isChecked :
  keysMatch inst →
  (∀ t, protoKey ∉ map sub_id (subtasks t) → keysMatch (newInstance t))
  ∧ (∀ b, keysMatch (toggleTask b inst))
  ∧ (subtaskId ∈ map sub_id (subtasks (task inst)) →
     keysMatch (toggleSubtask subtaskId isChecked inst))
  ∧ (subtaskId ∉ map sub_id (subtasks (task inst)) →
     subtaskId ≠ protoKey →
     (subtaskId ∉ dom (subtaskCompletion inst))
     ∧ dom (subtaskCompletion (toggleSubtask subtaskId isChecked inst))
       = {[subtaskId]} ∪ dom (subtaskCompletion inst)
     ∧ (¬ keysMatch (toggleSubtask subtaskId isChecked inst))).
Proof.
  intros Hinv. split; [apply keysMatch_newInstance|]. split; [|split].
  - intros b. by apply keysMatch_toggleTask.
  - by apply keysMatch_toggleSubtask.
  - intros Hnin Hne. split; [|split].
    + rewrite Hinv. by rewrite elem_of_list_to_set.
    + by apply toggleSubtask_adds_key.
    + by apply keysMatch_lost.
Qed.

(** The same on the list of instances: the handlers keep the key sets as
    long as [handleSubtaskToggle] is given the id of a subtask of the
    instance that it finds. *)
Lemma findIndex_Some instanceId (instances : list TaskInstance) k :
  findIndex instanceId instances = Some k →
  ∃ inst, instances !! k = Some inst ∧ inst_id inst = instanceId.
Proof.
  revert k. induction instances as [|i rest IH]; intros k; cbn; [done|].
  destruct (String.eqb_spec (inst_id i) instanceId) as [Heq|Hne].
  - intros [= <-]. by exists i.
  - destruct (findIndex instanceId rest) as [k'|]; cbn; [|done].
    intros [= <-]. by apply IH.
Qed.

Lemma keysMatch_generateTodayInstances catalog today :
  Forall (fun t => protoKey ∉ map sub_id (subtasks t)) catalog →
  Forall keysMatch (generateTodayInstances catalog today).
Proof.
  intros Hcatalog. apply Forall_forall. intros inst Hin.
  apply list_elem_of_In, in_map_iff in Hin as [t [<- Ht]].
  apply keysMatch_newInstance.
  apply filter_In in Ht as [Ht _]. apply list_elem_of_In in Ht.
  by apply (proj1 (Forall_forall _ _) Hcatalog).
Qed.

Lemma keysMatch_handleTaskToggle (instances : list TaskInstance) instanceId isChecked :
  Forall keysMatch instances →
  Forall keysMatch (handleTaskToggle instances instanceId isChecked).
Proof.
  intros Hall. unfold handleTaskToggle.
  destruct (findIndex instanceId instances) as [k|]; [|done].
  apply Forall_alter; [done|]. intros inst _. apply keysMatch_toggleTask.
Qed.

Lemma keysMatch_handleSubtaskToggle (instances : list TaskInstance)
    instanceId subtaskId isChecked :
  Forall keysMatch instances →
  (∀ k inst, findIndex instanceId instances = Some k →
             instances !! k = Some inst →
             subtaskId ∈ map sub_id (subtasks (task inst))) →
  Forall keysMatch (handleSubtaskToggle instances instanceId subtaskId isChecked).
Proof.
  intros Hall Hsub. unfold handleSubtaskToggle.
  destruct (findIndex instanceId instances) as [k|] eqn:Hk; [|done].
  apply Forall_alter; [done|]. intros inst Hinst Hkeys.
  apply keysMatch_toggleSubtask; [done|]. by apply (Hsub k).
Qed.

(** A handler that finds no instance with the id changes nothing. *)
Lemma handlers_without_match (instances : list TaskInstance)
    instanceId subtaskId isChecked :
  Forall (fun i => inst_id i ≠ instanceId) instances →
  handleTaskToggle instances instanceId isChecked = instances
  ∧ handleSubtaskToggle instances instanceId subtaskId isChecked = instances.
Proof.
  intros Hnone. apply findIndex_None in Hnone.
  unfold handleTaskToggle, handleSubtaskToggle. by rewrite Hnone.
Qed.

Lemma objectValues_singleton (k : string) (b : bool) :
  objectValues ({[k := b]} : gmap string bool) = [b].
Proof. unfold objectValues. by rewrite map_to_list_singleton. Qed.

(** C9, amended. For an instance whose task has no subtask and whose
    [subtaskCompletion] is empty, [toggleSubtask] given an id other than
    [__proto__] keeps the id and the task, stores the flag under the
    given id and sets [completed] to the flag. *)
Theorem toggleSubtask_without_subtasks inst subtaskId isChecked :
  subtasks (task inst) = [] →
  subtaskCompletion inst = ∅ →
  subtaskId ≠ protoKey →
  toggleSubtask subtaskId isChecked inst
  = mkTaskInstance (inst_id inst) (task inst) isChecked {[subtaskId := isChecked]}.
Proof.
  intros _ Hempty Hne. unfold toggleSubtask. rewrite Hempty.
  rewrite assign_insert by (by left).
  rewrite insert_empty, objectValues_singleton. cbn.
  by rewrite andb_true_r.
Qed.

(** ** Progress percentage *)

(** C7. The percentage is [currentPoints / totalPoints] when
    [totalPoints > 0] and [+0] otherwise, so a total of zero gives 0 and
    not 1; on the empty list the percentage and the total are both
    [+0]. *)
Theorem progressPercent_guarded (todayInstances : list TaskInstance) :
  progressPercent (updateProgress todayInstances)
  = (if gt (totalPoints (updateProgress todayInstances)) zero
     then div (currentPoints (updateProgress todayInstances))
              (totalPoints (updateProgress todayInstances))
     else zero)
  ∧ (if isZero (totalPoints (updateProgress todayInstances))
     then progressPercent (updateProgress todayInstances) = zero
     else True)
  ∧ progressPercent (updateProgress []) = zero
  ∧ totalPoints (updateProgress []) = zero.
Proof.
  unfold updateProgress.
  destruct (fold_left accumulate todayInstances (zero, zero)) as [c t].
  cbn [progressPercent totalPoints currentPoints].
  split; [done|]. split; [|done].
  destruct t; cbn; done.
Qed.

(** ** Selection of the tasks of the day *)

Lemma includesDay_Some (days : list Day) (d : Day) :
  includesDay days (Some d) = true ↔ d ∈ days.
Proof.
  cbn. rewrite existsb_exists. split.
  - intros [d' [Hin Hd]]. apply bool_decide_eq_true in Hd as ->.
    by apply list_elem_of_In.
  - intros Hin. exists d. split; [by apply list_elem_of_In|].
    by apply bool_decide_eq_true.
Qed.

(** Every value of [getDay()] has its tag in [dayMap]. *)
Lemma dayMap_total (today : Date) :
  (today < 7)%nat → ∃ tag, dayMap !! today = Some tag.
Proof.
  intros H. do 7 (destruct today as [|today]; [by eexists|]). lia.
Qed.

Lemma isEligibleToday_iff (t : Task) (today : Date) (tag : Day) :
  dayMap !! today = Some tag →
  isEligibleToday t today = true ↔ active t = true ∧ tag ∈ daysOfWeek t.
Proof.
  intros Htag. unfold isEligibleToday. rewrite Htag.
  destruct (active t); cbn [negb].
  - rewrite includesDay_Some. split; [by intros ?|by intros [_ ?]].
  - split; [done|by intros [? _]].
Qed.

Lemma filter_eligible (catalog : list Task) (today : Date) (tag : Day) :
  dayMap !! today = Some tag →
  List.filter (fun t => isEligibleToday t today) catalog
  = filter (fun t => active t = true ∧ tag ∈ daysOfWeek t) catalog.
Proof.
  intros Htag. induction catalog as [|t catalog IH]; [done|].
  cbn [List.filter]. rewrite filter_cons, IH.
  destruct (isEligibleToday t today) eqn:He.
  - apply (isEligibleToday_iff _ _ _ Htag) in He. by rewrite decide_True.
  - rewrite decide_False; [done|]. intros H.
    apply (isEligibleToday_iff _ _ _ Htag) in H. congruence.
Qed.

Lemma newInstance_fresh (t : Task) : freshFor t (newInstance t).
Proof.
  unfold freshFor, newInstance; cbn. repeat split.
  - intros sub Hsub Hne. rewrite lookup_init_flags.
    destruct (decide _) as [_|Hnot]; [done|]. destruct Hnot.
    split; [apply list_elem_of_fmap; eauto|by left].
  - intros k v. rewrite lookup_init_flags.
    destruct (decide _); [congruence|by rewrite lookup_empty].
Qed.

(** C3. On a date whose weekday tag is [tag], the tasks of the generated
    instances are the tasks of the catalog that are active and have [tag]
    in [daysOfWeek], in catalog order and one instance per such task; a
    task is eligible exactly under this condition; every instance has the
    id of its task, is not completed, holds no flag that is not false,
    and holds a false flag for every subtask whose id is not
    [__proto__].
    For a subtask whose id is [__proto__] the claim fails: the instance
    made from [protoCsv], whose one task has the one subtask [__proto__],
    stores no flag at all, and the flag of that subtask reads as true. *)
Theorem generateTodayInstances_selects :
  (∀ catalog today tag,
     dayMap !! today = Some tag →
     map task (generateTodayInstances catalog today)
     = filter (fun t => active t = true ∧ tag ∈ daysOfWeek t) catalog
     ∧ (∀ t, isEligibleToday t today = true
             ↔ active t = true ∧ tag ∈ daysOfWeek t)
     ∧ Forall (fun inst => freshFor (task inst) inst)
              (generateTodayInstances catalog today))
  ∧ map (fun inst => (inst_id inst, map sub_id (subtasks (task inst))))
        protoInstances
    = [("_", ["__proto__"])]
  ∧ map snapshot protoInstances = [(1%nat, false, [])]
  ∧ map (fun inst => map (subtaskDone inst) (subtasks (task inst)))
        protoInstances
    = [[true]].
Proof.
  split; [|by vm_compute].
  intros catalog today tag Htag. unfold generateTodayInstances.
  rewrite <- (filter_eligible _ _ _ Htag). split; [|split].
  - rewrite map_map. cbn. apply map_id.
  - intros t. by apply isEligibleToday_iff.
  - apply Forall_forall. intros inst Hin.
    apply list_elem_of_In, in_map_iff in Hin as [t [<- _]].
    apply (newInstance_fresh t).
Qed.

(** ** Decoding of the days column *)

Lemma dayOfString_Some (tok : string) (d : Day) :
  dayOfString tok = Some d → tok = dayTag d.
Proof.
  unfold dayOfString. intros H. apply List.find_some in H as [_ H].
  by apply String.eqb_eq in H.
Qed.

Lemma dayOfString_tag (d : Day) : dayOfString (dayTag d) = Some d.
Proof. by destruct d. Qed.

Lemma dayOfString_None (tok : string) :
  dayOfString tok = None → existsb (String.eqb tok) (map dayTag allDays) = false.
Proof.
  intros H. apply not_true_is_false. intros Hex.
  apply existsb_exists in Hex as [tag [Hin Heq]].
  apply String.eqb_eq in Heq as <-.
  apply in_map_iff in Hin as [d [<- _]].
  rewrite dayOfString_tag in H. discriminate.
Qed.

(** Keeping the tokens that are weekday tags, then reading them as [Day]. *)
Lemma omap_dayOfString (toks : list string) :
  map dayTag (omap dayOfString toks)
  = List.filter (fun tok => existsb (String.eqb tok) (map dayTag allDays)) toks.
Proof.
  induction toks as [|tok toks IH]; [done|].
  cbn [omap List.filter list_omap]. destruct (dayOfString tok) as [d|] eqn:Hd.
  - pose proof (dayOfString_Some _ _ Hd) as ->.
    replace (existsb (String.eqb (dayTag d)) (map dayTag allDays)) with true
      by (by destruct d).
    cbn [map]. by rewrite IH.
  - by rewrite (dayOfString_None _ Hd).
Qed.

(** C5, amended. The three shorthands are recognised in any letter case:
    the empty (or missing) field and [all] give the seven days,
    [weekdays] gives Monday to Friday, [weekend] gives Saturday and
    Sunday. Any other field is split on commas, each piece is trimmed, and
    the pieces that are exactly one of the seven tags [Mon] .. [Sun]
    (same letter case) are kept, in order; the other pieces are dropped. *)
Theorem parseDays_decoding (s : string) :
  (s = "" ∨ toLowerCase s = "all" → parseDays (Some s) = allDays)
  ∧ (toLowerCase s = "weekdays" → parseDays (Some s) = [Mon; Tue; Wed; Thu; Fri])
  ∧ (toLowerCase s = "weekend" → parseDays (Some s) = [Sat; Sun])
  ∧ (s ≠ "" → toLowerCase s ≠ "all" → toLowerCase s ≠ "weekdays" →
     toLowerCase s ≠ "weekend" →
     map dayTag (parseDays (Some s))
     = List.filter (fun tok => existsb (String.eqb tok) (map dayTag allDays))
                   (map trim (split comma s)))
  ∧ parseDays None = allDays.
Proof.
  unfold parseDays. repeat split.
  - intros [->|H]; [done|]. apply String.eqb_eq in H. rewrite H.
    by rewrite orb_true_r.
  - intros H. rewrite H. cbn.
    destruct (String.eqb_spec s "") as [->|_]; [discriminate|done].
  - intros H. rewrite H. cbn.
    destruct (String.eqb_spec s "") as [->|_]; [discriminate|done].
  - intros H0 H1 H2 H3.
    apply String.eqb_neq in H0, H1, H2, H3. rewrite H0, H1, H2, H3. cbn [orb].
    apply omap_dayOfString.
Qed.

(** ** Numeric fields *)

Lemma binary_round_aux_notNegative (mx ex : Z) (lx : location) :
  notNegative (binary_round_aux prec emax false mx ex lx).
Proof.
  unfold binary_round_aux.
  destruct (shr_fexp prec emax mx ex lx) as [mrs' e'].
  destruct (shr_fexp prec emax _ e' loc_Exact) as [mrs'' e''].
  destruct (shr_m mrs''); [done| |done].
  by destruct (Z.leb _ _).
Qed.

Lemma ofZ_notNegative (z : Z) : (0 ≤ z)%Z → notNegative (ofZ z).
Proof.
  intros Hz. destruct z as [|p|p]; [done| |lia].
  unfold ofZ, binary_normalize, binary_round.
  destruct (shl_align _ _ _) as [mz ez]. apply binary_round_aux_notNegative.
Qed.

Lemma orElse_zero_le (x : number) :
  notNegative x → SFleb zero (orElse x zero) = true.
Proof. destruct x as [s|s| |s m e]; cbn; try done; by intros ->. Qed.

Lemma orElse_zero_not_NaN (x : number) : isNaN (orElse x zero) = false.
Proof. by destruct x. Qed.

Lemma isDigit_digitValue (c : ascii) : isDigit c = true → (0 ≤ digitValue c)%Z.
Proof.
  unfold isDigit, digitValue. intros H.
  apply andb_true_iff in H as [H _]. apply N.leb_le in H. lia.
Qed.

Lemma digitsPrefix_nonneg (s : string) (seen : bool) (acc v : Z) :
  (0 ≤ acc)%Z → digitsPrefix seen acc s = Some v → (0 ≤ v)%Z.
Proof.
  revert seen acc. induction s as [|c r IH]; intros seen acc Hacc; cbn.
  - destruct seen; [|done]. intros [= <-]. done.
  - destruct (isDigit c) eqn:Hc.
    + apply IH. pose proof (isDigit_digitValue _ Hc). lia.
    + destruct seen; [|done]. intros [= <-]. done.
Qed.

(** What [parseInt] can return: [NaN], a zero, or the Number value of a
    non-zero integer. *)
Lemma parseIntString_cases (s : string) :
  parseIntString s = NaN ∨ parseIntString s = zero ∨ parseIntString s = negzero
  ∨ ∃ v, parseIntString s = ofZ v.
Proof.
  unfold parseIntString.
  destruct (match trimStart s with
            | String c r => _ | EmptyString => _ end) as [negative s2].
  destruct (digitsPrefix false 0 s2) as [[|p|p]|]; [destruct negative|..]; eauto.
Qed.

Lemma parseInt_notNegative (x : option string) :
  startsWithMinus x = false → notNegative (parseInt x).
Proof.
  destruct x as [s|]; [|done]. unfold startsWithMinus, parseInt, parseIntString.
  destruct (trimStart s) as [|c r] eqn:Hs; [done|].
  intros Hc. rewrite Hc.
  assert (∀ t, notNegative
            match digitsPrefix false 0 t with
            | Some 0%Z => zero
            | Some (Z.pos _ as v) | Some (Z.neg _ as v) => ofZ v
            | None => NaN
            end) as Haux.
  { intros t. destruct (digitsPrefix false 0 t) as [v|] eqn:Hv; [|done].
    apply digitsPrefix_nonneg in Hv; [|done].
    destruct v; [done| |lia]. by apply ofZ_notNegative. }
  destruct (Ascii.eqb c "+"); apply Haux.
Qed.

(** C6, amended. For every row: [points] is never [NaN] and is the Number
    value of an integer; it is [+0] when the points field is missing,
    empty or unparsable; it is not below zero when the field does not
    start with a minus sign. [subPoints] is [undefined], which is not the
    number 0, when the field is missing or empty, and is the number that
    [parseInt] reads when the field starts with a decimal integer. *)
Theorem numeric_fields (taskName parent subtaskName : string) (columns : list string) :
  isNaN (points (taskOfColumns taskName columns)) = false
  ∧ (∃ z, points (taskOfColumns taskName columns) = ofZ z)
  ∧ (isNaN (parseInt (columns !! 2%nat)) = true →
     points (taskOfColumns taskName columns) = zero)
  ∧ (columns !! 2%nat = None ∨ columns !! 2%nat = Some "" →
     points (taskOfColumns taskName columns) = zero)
  ∧ (startsWithMinus (columns !! 2%nat) = false →
     SFleb zero (points (taskOfColumns taskName columns)) = true)
  ∧ (nonEmpty (columns !! 3%nat) = None →
     subPoints (subtaskOfColumns parent subtaskName columns) = None
     ∧ subPoints (subtaskOfColumns parent subtaskName columns) ≠ Some zero)
  ∧ (∀ field, nonEmpty (columns !! 3%nat) = Some field →
     isNaN (parseIntString field) = false →
     subPoints (subtaskOfColumns parent subtaskName columns)
     = Some (parseIntString field)).
Proof.
  cbn [taskOfColumns subtaskOfColumns points subPoints].
  split; [apply orElse_zero_not_NaN|]. split.
  { destruct (columns !! 2%nat) as [s|]; cbn [parseInt].
    - destruct (parseIntString_cases s) as [->|[->|[->|[v ->]]]];
        try (by exists 0%Z).
      unfold orElse. destruct (truthy (ofZ v)); [by exists v|by exists 0%Z].
    - by exists 0%Z. }
  split.
  { intros H. destruct (parseInt (columns !! 2%nat)); done. }
  split.
  { intros [->| ->]; done. }
  split.
  { intros H. by apply orElse_zero_le, parseInt_notNegative. }
  split.
  { intros ->. done. }
  intros field -> _. done.
Qed.

(** ** Grouping of rows by the parser *)

Lemma processLine_classify (st : ParserState) (line : string) :
  processLine st line
  = match classify line with
    | TaskRow taskName columns =>
        mkParserState (masterTasks st ++ [taskOfColumns taskName columns])
                      (Some (length (masterTasks st)))
    | SubtaskRow subtaskName columns =>
        match currentTask st with
        | Some ref =>
            match masterTasks st !! ref with
            | Some cur =>
                mkParserState
                  (alter (pushSubtask
                            (subtaskOfColumns (task_name cur) subtaskName columns))
                         ref (masterTasks st))
                  (Some ref)
            | None => st
            end
        | None => st
        end
    | SkippedRow => st
    end.
Proof.
  unfold processLine, classify.
  destruct (String.eqb (trim line) ""); [done|]. cbn zeta.
  destruct (nonEmpty (columnsOf line !! 0%nat)); [done|].
  destruct (nonEmpty (columnsOf line !! 1%nat)); [done|].
  by destruct (currentTask st).
Qed.

Lemma withSubtasks_nil (t : Task) : withSubtasks t [] = t.
Proof. destruct t. unfold withSubtasks; cbn. by rewrite app_nil_r. Qed.

Lemma withSubtasks_push (t : Task) (sub : Subtask) (subs : list Subtask) :
  withSubtasks (pushSubtask sub t) subs = withSubtasks t (sub :: subs).
Proof. unfold withSubtasks, pushSubtask; cbn. by rewrite <- app_assoc. Qed.

Lemma alter_last (f : Task → Task) (pre : list Task) (t : Task) :
  alter f (length pre) (pre ++ [t]) = pre ++ [f t].
Proof. induction pre as [|x pre IH]; cbn; [done|]. by f_equal. Qed.

(** The loop, started when [currentTask] is the last task of the array. *)
Lemma parse_loop_current (lines : list string) (pre : list Task) (t : Task) :
  masterTasks
    (fold_left processLine lines (mkParserState (pre ++ [t]) (Some (length pre))))
  = pre ++ withSubtasks t (subtasksBelow (task_name t) (map classify lines))
        :: catalogOfRows (map classify lines).
Proof.
  revert pre t. induction lines as [|line lines IH]; intros pre t.
  - cbn. by rewrite withSubtasks_nil.
  - cbn [fold_left map]. rewrite processLine_classify.
    destruct (classify line) as [taskName columns|subtaskName columns|];
      cbn [masterTasks currentTask subtasksBelow catalogOfRows].
    + rewrite (IH (pre ++ [t]) (taskOfColumns taskName columns)).
      rewrite withSubtasks_nil, <- app_assoc. done.
    + rewrite lookup_app_r by done. rewrite Nat.sub_diag. cbn [lookup list_lookup].
      rewrite alter_last, IH. cbn [pushSubtask task_name].
      by rewrite withSubtasks_push.
    + apply IH.
Qed.

(** The loop, started with no current task. *)
Lemma parse_loop_start (lines : list string) (before : list Task) :
  masterTasks (fold_left processLine lines (mkParserState before None))
  = before ++ catalogOfRows (map classify lines).
Proof.
  induction lines as [|line lines IH].
  - cbn. by rewrite app_nil_r.
  - cbn [fold_left map]. rewrite processLine_classify.
    destruct (classify line) as [taskName columns|subtaskName columns|];
      cbn [masterTasks currentTask catalogOfRows].
    + rewrite parse_loop_current. done.
    + apply IH.
    + apply IH.
Qed.

Lemma subtasksBelow_skipped (parent : string) (rows : list Row) :
  subtasksBelow parent (List.filter (fun r => negb (isSkippedRow r)) rows)
  = subtasksBelow parent rows.
Proof.
  induction rows as [|[taskName columns|subtaskName columns|] rows IH];
    cbn; [done|done| |done].
  by rewrite IH.
Qed.

(** Skipped rows can be removed without changing the catalog. *)
Lemma catalogOfRows_skipped (rows : list Row) :
  catalogOfRows (List.filter (fun r => negb (isSkippedRow r)) rows)
  = catalogOfRows rows.
Proof.
  induction rows as [|[taskName columns|subtaskName columns|] rows IH];
    cbn; [done| |done|done].
  by rewrite IH, subtasksBelow_skipped.
Qed.

(** Rows that come before the first task row give nothing. *)
Lemma catalogOfRows_orphans (orphans rows : list Row) :
  catalogOfRows (List.filter (fun r => negb (isTaskRow r)) orphans ++ rows)
  = catalogOfRows rows.
Proof.
  induction orphans as [|[taskName columns|subtaskName columns|] orphans IH];
    cbn; done.
Qed.

Lemma catalogOfRows_names (rows : list Row) :
  map task_name (catalogOfRows rows) = omap rowTaskName rows.
Proof.
  induction rows as [|[taskName columns|subtaskName columns|] rows IH];
    cbn; [done| |done|done].
  by rewrite IH.
Qed.

(** ** Aggregation of points *)

Lemma fold_left_add_if {A} (f : A → bool) (g : A → number) (l : list A) (a : number) :
  fold_left (fun e x => if f x then add e (g x) else e) l a
  = fold_left add (map g (List.filter f l)) a.
Proof.
  revert a. induction l as [|x l IH]; intros a; cbn; [done|].
  destruct (f x); cbn; apply IH.
Qed.

Lemma earnedSubPoints_partialCredit (inst : TaskInstance) :
  subtasks (task inst) ≠ [] → earnedSubPoints inst = partialCredit inst.
Proof.
  intros Hsubs. unfold earnedSubPoints, partialCredit. cbn zeta.
  destruct (existsb definesSubPoints (subtasks (task inst))).
  - apply fold_left_add_if.
  - destruct (subtasks (task inst)); done.
Qed.

Lemma accumulate_contribution (c t : number) (inst : TaskInstance) :
  accumulate (c, t) inst
  = (match contribution inst with Some v => add c v | None => c end,
     add t (points (task inst))).
Proof.
  unfold accumulate, contribution. destruct (completed inst); [done|].
  destruct (subtasks (task inst)) as [|s subs] eqn:Hs; [done|].
  cbn [length Nat.ltb Nat.leb]. rewrite earnedSubPoints_partialCredit; [done|].
  by rewrite Hs.
Qed.

Lemma fold_accumulate (l : list TaskInstance) (c t : number) :
  fold_left accumulate l (c, t)
  = (fold_left add (omap contribution l) c,
     fold_left add (map (fun i => points (task i)) l) t).
Proof.
  revert c t. induction l as [|inst l IH]; intros c t; [done|].
  cbn [fold_left map omap list_omap]. rewrite accumulate_contribution, IH.
  by destruct (contribution inst).
Qed.

Lemma SFcompare_antisym (x y : number) (c : comparison) :
  SFcompare x y = Some c → SFcompare y x = Some (CompOpp c).
Proof.
  destruct x as [sx|sx| |sx mx ex], y as [sy|sy| |sy my ey]; cbn;
    try discriminate; try (intros [= <-]; by repeat case_match).
  intros [= <-]. f_equal. destruct sx, sy; try done.
  - rewrite (Z.compare_antisym ex ey). destruct (ex ?= ey)%Z; cbn; try done.
    rewrite CompOpp_involutive. by rewrite Pos.compare_cont_antisym.
  - rewrite (Z.compare_antisym ex ey). destruct (ex ?= ey)%Z; cbn; try done.
    by rewrite Pos.compare_cont_antisym.
Qed.

Lemma SFltb_irrefl (x : number) : SFltb x x = false.
Proof.
  unfold SFltb. destruct (SFcompare x x) as [c|] eqn:Hc; [|done].
  pose proof (SFcompare_antisym _ _ _ Hc) as Hc'. rewrite Hc in Hc'.
  by destruct c.
Qed.

(** The clamp: [Math.min(e, p)] is never above [p]. *)
Lemma Math_min_le_r (e p : number) : gt (Math_min e p) p = false.
Proof.
  unfold gt, Math_min. destruct (SFcompare e p) as [c|] eqn:Hc.
  - pose proof (SFcompare_antisym _ _ _ Hc) as Hc'. destruct c.
    + assert (SFltb p e = false) as He by (unfold SFltb; by rewrite Hc').
      destruct e as [[]| | |]; auto using SFltb_irrefl.
    + unfold SFltb. by rewrite Hc'.
    + apply SFltb_irrefl.
  - unfold SFltb, NaN. by destruct p.
Qed.

Lemma sameValue_refl (x : number) : sameValue x x.
Proof. by left. Qed.

Lemma sameValue_add_zero (x : number) : sameValue x (add x zero).
Proof.
  destruct x as [[]| [] | |s m e]; cbn; try (by left). right. done.
Qed.

Lemma sameValue_add (a a' x : number) :
  sameValue a a' → sameValue (add a x) (add a' x).
Proof.
  intros [->|[Ha Ha']]; [by left|].
  destruct a as [sa| | |]; try discriminate.
  destruct a' as [sa'| | |]; try discriminate.
  destruct x as [sx|sx| |sx mx ex]; cbn; try (by left).
  right. by destruct sa, sa', sx.
Qed.

Lemma fold_contribution_sameValue (l : list TaskInstance) (a a' : number) :
  sameValue a a' →
  sameValue (fold_left add (omap contribution l) a)
            (fold_left add (map earned l) a').
Proof.
  revert a a'. induction l as [|inst l IH]; intros a a' Ha; [done|].
  cbn [omap list_omap map fold_left].
  assert (earned inst = match contribution inst with Some v => v | None => zero end)
    as -> by done.
  destruct (contribution inst) as [v|]; cbn [fold_left].
  - apply IH. by apply sameValue_add.
  - apply IH. destruct Ha as [->|[Ha Ha']].
    + apply sameValue_add_zero.
    + right. split; [done|]. by destruct a' as [[]| | |].
Qed.

Lemma length_filter_Permutation {A} (f : A → bool) (l k : list A) :
  l ≡ₚ k → length (List.filter f l) = length (List.filter f k).
Proof.
  induction 1 as [|x l k _ IH|x y l|l k m _ IH1 _ IH2]; cbn.
  - done.
  - destruct (f x); cbn; by rewrite IH.
  - by destruct (f x), (f y).
  - by rewrite IH1.
Qed.

Lemma filter_map_comm {A B} (f : B → bool) (g : A → B) (l : list A) :
  List.filter f (map g l) = map g (List.filter (fun x => f (g x)) l).
Proof.
  induction l as [|x l IH]; cbn; [done|].
  destruct (f (g x)); cbn; by rewrite IH.
Qed.

(** The number of true values is the number of keys whose flag is true. *)
Lemma completedCount_keys (o : gmap string bool) :
  completedCount o = length (List.filter (flagOf o) (objectKeys o)).
Proof.
  unfold completedCount, objectValues, objectKeys.
  assert (∀ kv, kv ∈ map_to_list o → flagOf o kv.1 = kv.2) as Hflag.
  { intros [k v] Hin. apply elem_of_map_to_list in Hin.
    unfold flagOf; cbn. by rewrite Hin. }
  induction (map_to_list o) as [|[k v] l IH]; [done|].
  cbn [map List.filter fst snd].
  assert (flagOf o k = v) as ->
    by (apply (Hflag (k, v)), elem_of_cons; by left).
  assert (length (List.filter (fun b : bool => b) (map snd l))
          = length (List.filter (flagOf o) (map fst l))) as Hrec.
  { apply IH. intros kv Hkv. apply Hflag. apply elem_of_cons. by right. }
  destruct v; cbn; by rewrite Hrec.
Qed.

(** When the ids of the subtasks are pairwise distinct and are the keys of
    [subtaskCompletion], the number of true values is the number of
    subtasks whose flag is true. *)
Lemma completedCount_distinct_ids (inst : TaskInstance) :
  NoDup (map sub_id (subtasks (task inst))) →
  keysMatch inst →
  completedCount (subtaskCompletion inst)
  = length (List.filter (subtaskDone inst) (subtasks (task inst))).
Proof.
  intros Hnd Hkeys. rewrite completedCount_keys.
  rewrite (length_filter_Permutation _ _ (map sub_id (subtasks (task inst)))).
  - rewrite filter_map_comm, length_map. done.
  - apply NoDup_Permutation; [apply NoDup_fst_map_to_list|done|].
    intros k. fold (objectKeys (subtaskCompletion inst)).
    rewrite elem_of_objectKeys, <- elem_of_dom, Hkeys.
    apply elem_of_list_to_set.
Qed.

(** C1, amended. [totalPoints] is the sum of the points of all instances
    and [currentPoints] is the sum of what the instances add, where an
    instance adds: the points of its task when it is completed; nothing,
    that is 0, when it is not completed and has no subtask; and
    otherwise, when it has subtasks, [Math.min] of a partial credit and
    the points of the task, which is never above these points. The
    partial credit is, when at least one subtask defines [subPoints], the
    sum over the subtasks whose flag is true of [subPoints || 0] (0 for
    [subPoints] that are undefined, [NaN] or zero); and when no subtask
    defines [subPoints], the number of true values of [subtaskCompletion]
    times the points divided by the number of subtasks. The number of
    true values is the number of subtasks whose flag is true when the
    subtask ids are pairwise distinct and are the keys of
    [subtaskCompletion]. The flag of a subtask is what is read under its
    id: the stored flag when the id is a key, and false when it is not,
    unless the id is a property name of [Object.prototype]. *)
Theorem updateProgress_sums (todayInstances : list TaskInstance) :
  totalPoints (updateProgress todayInstances)
  = sumNumbers (map (fun i => points (task i)) todayInstances)
  ∧ currentPoints (updateProgress todayInstances)
    = sumNumbers (omap contribution todayInstances)
  ∧ sameValue (currentPoints (updateProgress todayInstances))
              (sumNumbers (map earned todayInstances))
  ∧ (∀ inst,
       (completed inst = true → earned inst = points (task inst))
       ∧ (completed inst = false → subtasks (task inst) = [] →
          contribution inst = None ∧ earned inst = zero)
       ∧ (completed inst = false → subtasks (task inst) ≠ [] →
          existsb definesSubPoints (subtasks (task inst)) = true →
          earned inst
          = Math_min
              (sumNumbers
                 (map subPointsOrZero
                      (List.filter (subtaskDone inst) (subtasks (task inst)))))
              (points (task inst)))
       ∧ (completed inst = false → subtasks (task inst) ≠ [] →
          existsb definesSubPoints (subtasks (task inst)) = false →
          earned inst
          = Math_min
              (mul (ofNat (completedCount (subtaskCompletion inst)))
                   (div (points (task inst))
                        (ofNat (length (subtasks (task inst))))))
              (points (task inst)))
       ∧ (completed inst = false → subtasks (task inst) ≠ [] →
          gt (earned inst) (points (task inst)) = false)
       ∧ (NoDup (map sub_id (subtasks (task inst))) → keysMatch inst →
          completedCount (subtaskCompletion inst)
          = length (List.filter (subtaskDone inst) (subtasks (task inst))))
       ∧ (∀ sub v, subtaskCompletion inst !! sub_id sub = Some v →
                   subtaskDone inst sub = v)
       ∧ (∀ sub, subtaskCompletion inst !! sub_id sub = None →
                 sub_id sub ∉ prototypeKeys →
                 subtaskDone inst sub = false)).
Proof.
  unfold updateProgress, sumNumbers. rewrite fold_accumulate.
  cbn [totalPoints currentPoints].
  split; [done|]. split; [done|]. split.
  { apply fold_contribution_sameValue, sameValue_refl. }
  intros inst. unfold earned, contribution, partialCredit. cbn zeta.
  split; [by intros ->|].
  split; [by intros -> ->|].
  split; [intros -> Hs ->; by destruct (subtasks (task inst))|].
  split; [intros -> Hs ->; by destruct (subtasks (task inst))|].
  split.
  { intros -> Hs. destruct (subtasks (task inst)); [done|].
    apply Math_min_le_r. }
  split; [apply completedCount_distinct_ids|].
  split.
  - intros sub v Hv. by apply flagOf_own.
  - intros sub Hnone Hproto. unfold subtaskDone.
    rewrite flagOf_missing by done. by apply bool_decide_eq_false.
Qed.

(** ** Examples *)

Example duplicateIdCsv_catalog :
  parseMasterTasks [] duplicateIdCsv = [taskRun; taskRunAgain].
Proof. vm_compute. reflexivity. Qed.

Example duplicateIdInstances_eq :
  duplicateIdInstances = [newInstance taskRun; newInstance taskRunAgain].
Proof. vm_compute. reflexivity. Qed.

(** The instances after the box of the subtask of the second instance
    is checked on the page: the handler is called with the id of that
    instance, which is also the id of the first. *)
Example duplicateId_subtask_toggle :
  map snapshot duplicateIdInstances
  = [(0%nat, false, []); (1%nat, false, [("run_x", false)])]
  ∧ map snapshot (handleSubtaskToggle duplicateIdInstances "run" "run_x" true)
    = [(0%nat, true, [("run_x", true)]); (1%nat, false, [("run_x", false)])].
Proof. split; vm_compute; reflexivity. Qed.

(** Witness of C10 on two instances with the same id. *)
Lemma toggles_hit_first_match_witness :
  handleTaskToggle duplicateIdInstances "run" true
  = [toggleTask true (newInstance taskRun); newInstance taskRunAgain]
  ∧ handleSubtaskToggle duplicateIdInstances "run" "run_x" true
    = [toggleSubtask "run_x" true (newInstance taskRun); newInstance taskRunAgain].
Proof.
  rewrite duplicateIdInstances_eq.
  apply (toggles_hit_first_match [] (newInstance taskRun)
           [newInstance taskRunAgain] "run" "run_x" true).
  - constructor.
  - reflexivity.
Defined.

(** Counterexample to C8 as stated. On the page of [duplicateIdCsv],
    checking the box of subtask [run_x] calls the handler with the id
    [run]; the instance found is the first one, whose task has no
    subtask, and it receives the key [run_x]. *)
Lemma keysMatch_broken_by_toggleSubtask :
  Forall keysMatch duplicateIdInstances
  ∧ handleSubtaskToggle duplicateIdInstances "run" "run_x" true
    = [toggleSubtask "run_x" true (newInstance taskRun); newInstance taskRunAgain]
  ∧ map snapshot (handleSubtaskToggle duplicateIdInstances "run" "run_x" true)
    = [(0%nat, true, [("run_x", true)]); (1%nat, false, [("run_x", false)])]
  ∧ (¬ keysMatch (toggleSubtask "run_x" true (newInstance taskRun))).
Proof.
  split; [|split; [|split]].
  - rewrite duplicateIdInstances_eq.
    repeat constructor; apply keysMatch_newInstance; cbn;
      intros Hin; repeat (apply elem_of_cons in Hin as [Hin|Hin]; [done|]);
      by apply elem_of_nil in Hin.
  - rewrite duplicateIdInstances_eq.
    apply (handleSubtaskToggle_first [] (newInstance taskRun)); [constructor|done].
  - by vm_compute.
  - apply keysMatch_lost; [|cbn; apply not_elem_of_nil|done].
    apply keysMatch_newInstance. cbn. apply not_elem_of_nil.
Qed.

(** Witness of C8, amended, on the instance of [taskRunAgain]. *)
Lemma keysMatch_preserved_witness :
  (∀ t, protoKey ∉ map sub_id (subtasks t) → keysMatch (newInstance t))
  ∧ (∀ b, keysMatch (toggleTask b (newInstance taskRunAgain)))
  ∧ keysMatch (toggleSubtask "run_x" true (newInstance taskRunAgain))
  ∧ dom (subtaskCompletion
           (toggleSubtask "run_y" true (newInstance taskRunAgain)))
    = {["run_y"]} ∪ dom (subtaskCompletion (newInstance taskRunAgain))
  ∧ (¬ keysMatch (toggleSubtask "run_y" true (newInstance taskRunAgain))).
Proof.
  assert (keysMatch (newInstance taskRunAgain)) as Hkeys.
  { apply keysMatch_newInstance. cbn. intros Hin.
    apply elem_of_cons in Hin as [Hin|Hin]; [done|].
    by apply elem_of_nil in Hin. }
  pose proof (keysMatch_preserved (newInstance taskRunAgain) "run_x" true Hkeys)
    as (Hnew & Htask & Hsub & _).
  pose proof (keysMatch_preserved (newInstance taskRunAgain) "run_y" true Hkeys)
    as (_ & _ & _ & Hother).
  split; [exact Hnew|]. split; [exact Htask|]. split.
  - apply Hsub. apply elem_of_cons. left. reflexivity.
  - apply Hother; [|done]. cbn. intros Hin.
    apply elem_of_cons in Hin as [Hin|Hin]; [done|].
    by apply elem_of_nil in Hin.
Defined.

(** Counterexample to C9 as stated: the first instance of
    [duplicateIdInstances] has a task without subtasks, and the call of
    [handleSubtaskToggle] made by the page for the subtask of the second
    instance changes both its [completed] flag and its
    [subtaskCompletion]. *)
Lemma toggleSubtask_changes_instance_without_subtasks :
  (snapshot <$> duplicateIdInstances !! 0%nat) = Some (0%nat, false, [])
  ∧ (snapshot <$> handleSubtaskToggle duplicateIdInstances "run" "run_x" true !! 0%nat)
    = Some (0%nat, true, [("run_x", true)]).
Proof. split; vm_compute; reflexivity. Qed.

(** Witness of C9, amended. *)
Lemma toggleSubtask_without_subtasks_witness :
  toggleSubtask "run_x" true (newInstance taskRun)
  = mkTaskInstance "run" taskRun true {[ "run_x" := true ]}.
Proof.
  apply (toggleSubtask_without_subtasks (newInstance taskRun) "run_x" true);
    [reflexivity|reflexivity|discriminate].
Defined.

(** The weekend task is left out on a Wednesday and kept on a Saturday;
    the inactive task is left out on both. *)
Example weekend_task_selection :
  map inst_id
      (generateTodayInstances
         [mkTask "rest" "Rest" (ofZ 10) None None [Sat; Sun] [] true;
          mkTask "off" "Off" (ofZ 10) None None [Sat; Sun] [] false] 3) = []
  ∧ map inst_id
      (generateTodayInstances
         [mkTask "rest" "Rest" (ofZ 10) None None [Sat; Sun] [] true;
          mkTask "off" "Off" (ofZ 10) None None [Sat; Sun] [] false] 6) = ["rest"].
Proof. split; reflexivity. Qed.

(** Counterexample to C5 as stated: two fields that differ only in letter
    case are decoded differently. *)
Lemma parseDays_tokens_case_sensitive :
  toLowerCase "Mon,Tue" = toLowerCase "mon,TUE"
  ∧ parseDays (Some "Mon,Tue") = [Mon; Tue]
  ∧ parseDays (Some "mon,TUE") = [].
Proof. repeat split; reflexivity. Qed.

(** Witness of C5, amended. *)
Lemma parseDays_decoding_witness :
  parseDays (Some "ALL") = allDays
  ∧ parseDays (Some "") = allDays
  ∧ parseDays (Some "WeekDays") = [Mon; Tue; Wed; Thu; Fri]
  ∧ parseDays (Some "WEEKEND") = [Sat; Sun]
  ∧ map dayTag (parseDays (Some "Sat, Foo,mon,Mon"))
    = List.filter (fun tok => existsb (String.eqb tok) (map dayTag allDays))
        (map trim (split comma "Sat, Foo,mon,Mon"))
  ∧ parseDays (Some "Sat, Foo,mon,Mon") = [Sat; Mon].
Proof.
  split.
  { pose proof (parseDays_decoding "ALL") as (H & _).
    apply H. right. reflexivity. }
  split.
  { pose proof (parseDays_decoding "") as (H & _).
    apply H. left. reflexivity. }
  split.
  { pose proof (parseDays_decoding "WeekDays") as (_ & H & _).
    apply H. reflexivity. }
  split.
  { pose proof (parseDays_decoding "WEEKEND") as (_ & _ & H & _).
    apply H. reflexivity. }
  split.
  { pose proof (parseDays_decoding "Sat, Foo,mon,Mon") as (_ & _ & _ & H & _).
    apply H; discriminate. }
  reflexivity.
Defined.

(** Counterexample to C6 as stated: a points field with a minus sign gives
    negative points. *)
Lemma points_can_be_negative :
  map points (parseMasterTasks [] negativePointsCsv) = [ofZ (-5)]
  ∧ gt zero (ofZ (-5)) = true.
Proof. split; vm_compute; reflexivity. Qed.

(** A sub-points field that is not empty and not a number gives [NaN],
    which is not [undefined]. *)
Example subPoints_not_a_number :
  map (fun t => map subPoints (subtasks t)) (parseMasterTasks [] negativePointsCsv)
  = [[Some NaN]].
Proof. vm_compute. reflexivity. Qed.

(** Witness of C6, amended, on the columns of a row with 7 points and 3
    sub-points. *)
Lemma numeric_fields_witness :
  points (taskOfColumns "T" ["T"; ""; "7"; "3"]) = ofZ 7
  ∧ SFleb zero (points (taskOfColumns "T" ["T"; ""; "7"; "3"])) = true
  ∧ points (taskOfColumns "T" ["T"; ""; "seven"]) = zero
  ∧ points (taskOfColumns "T" ["T"]) = zero
  ∧ subPoints (subtaskOfColumns "T" "s" [""; "s"; ""; ""]) = None
  ∧ subPoints (subtaskOfColumns "T" "s" [""; "s"; ""; "3"]) = Some (ofZ 3).
Proof.
  split; [reflexivity|].
  split.
  { pose proof (numeric_fields "T" "T" "s" ["T"; ""; "7"; "3"])
      as (_ & _ & _ & _ & H & _).
    apply H. reflexivity. }
  split.
  { pose proof (numeric_fields "T" "T" "s" ["T"; ""; "seven"])
      as (_ & _ & H & _).
    apply H. reflexivity. }
  split.
  { pose proof (numeric_fields "T" "T" "s" ["T"]) as (_ & _ & _ & H & _).
    apply H. left. reflexivity. }
  split.
  { pose proof (numeric_fields "T" "T" "s" [""; "s"; ""; ""])
      as (_ & _ & _ & _ & _ & H & _).
    apply H. reflexivity. }
  pose proof (numeric_fields "T" "T" "s" [""; "s"; ""; "3"])
    as (_ & _ & _ & _ & _ & _ & H).
  apply (H "3"); reflexivity.
Defined.

(** Counterexample to C1 as stated. In [repeatedSubtaskInstances] two of
    the three subtasks have their flag true; the code counts one true
    value and adds 9 / 3 = 3 points, where the count of completed
    subtasks gives 6. *)
Lemma equal_split_counts_values :
  map snapshot repeatedSubtaskInstances
  = [(3%nat, false, [("a_y", false); ("a_x", true)])]
  ∧ map (fun inst => length (List.filter (subtaskDone inst) (subtasks (task inst))))
        repeatedSubtaskInstances = [2%nat]
  ∧ currentPoints (updateProgress repeatedSubtaskInstances) = ofZ 3
  ∧ sumNumbers (map earnedAsClaimed repeatedSubtaskInstances) = ofZ 6.
Proof. repeat split; vm_compute; reflexivity. Qed.

(** Witness of C1, amended, on the instances of [duplicateIdCsv] after the
    second one is completed: 5 of 15 points. *)
Lemma updateProgress_sums_witness :
  totalPoints (updateProgress [newInstance taskRun; toggleTask true (newInstance taskRunAgain)])
  = ofZ 15
  ∧ currentPoints (updateProgress [newInstance taskRun; toggleTask true (newInstance taskRunAgain)])
    = ofZ 5
  ∧ earned (toggleTask true (newInstance taskRunAgain)) = ofZ 5
  ∧ earned (newInstance taskRun) = zero
  ∧ gt (earned (newInstance taskRunAgain)) (ofZ 5) = false
  ∧ completedCount (subtaskCompletion (toggleTask true (newInstance taskRunAgain)))
    = 1%nat.
Proof.
  pose proof (updateProgress_sums
                [newInstance taskRun; toggleTask true (newInstance taskRunAgain)])
    as (Ht & Hc & _ & Hinst).
  split; [rewrite Ht; vm_compute; reflexivity|].
  split; [rewrite Hc; vm_compute; reflexivity|].
  split.
  { destruct (Hinst (toggleTask true (newInstance taskRunAgain))) as (H & _).
    apply H. reflexivity. }
  split.
  { destruct (Hinst (newInstance taskRun)) as (_ & H & _).
    apply H; reflexivity. }
  split.
  { destruct (Hinst (newInstance taskRunAgain)) as (_ & _ & _ & _ & H & _).
    apply H; [reflexivity|discriminate]. }
  destruct (Hinst (toggleTask true (newInstance taskRunAgain)))
    as (_ & _ & _ & _ & _ & Hn & _).
  rewrite Hn.
  - vm_compute. reflexivity.
  - repeat constructor. intros Hin. by apply elem_of_nil in Hin.
  - apply keysMatch_toggleTask, keysMatch_newInstance. cbn. intros Hin.
    apply elem_of_cons in Hin as [Hin|Hin]; [done|].
    by apply elem_of_nil in Hin.
Defined.

(** A subtask whose id is [__proto__] reads as ticked from the start: of
    the 10 points of the task, the 4 sub-points of that subtask are
    earned with no box ticked. *)
Example proto_subtask_reads_ticked :
  currentPoints
    (updateProgress
       (generateTodayInstances
          (parseMasterTasks []
             (csvOfLines [headerLine; "_,,10,,,,all,,,,,TRUE";
                          ",proto__,,4"; ",b,,6"]))
          1))
  = ofZ 4.
Proof. vm_compute. reflexivity. Qed.

(** A task of 10 points without subtask earns 10 once completed and 0 once
    unchecked again. *)
Example earned_without_subtasks :
  currentPoints
    (updateProgress [toggleTask true (newInstance taskRun)]) = ofZ 10
  ∧ currentPoints
      (updateProgress [toggleTask false (toggleTask true (newInstance taskRun))])
    = zero.
Proof. split; vm_compute; reflexivity. Qed.

(** A task of 10 points with subtasks of 4 and 6 sub-points earns 6 when
    only the second is done; when both are done [toggleSubtask] has set
    [completed] and the task earns 10. *)
Example earned_with_subPoints :
  let inst :=
    newInstance
      (mkTask "t" "T" (ofZ 10) None None allDays
              [mkSubtask "t_a" "a" (Some (ofZ 4));
               mkSubtask "t_b" "b" (Some (ofZ 6))] true) in
  currentPoints (updateProgress [toggleSubtask "t_b" true inst]) = ofZ 6
  ∧ completed (toggleSubtask "t_b" true inst) = false
  ∧ completed (toggleSubtask "t_a" true (toggleSubtask "t_b" true inst)) = true
  ∧ currentPoints
      (updateProgress [toggleSubtask "t_a" true (toggleSubtask "t_b" true inst)])
    = ofZ 10.
Proof. repeat split; vm_compute; reflexivity. Qed.

(** A task of 9 points with three subtasks without sub-points earns 3 per
    subtask done. *)
Example earned_equal_split :
  let inst :=
    newInstance
      (mkTask "t" "T" (ofZ 9) None None allDays
              [mkSubtask "t_a" "a" None; mkSubtask "t_b" "b" None;
               mkSubtask "t_c" "c" None] true) in
  currentPoints (updateProgress [toggleSubtask "t_a" true inst]) = ofZ 3
  ∧ currentPoints
      (updateProgress [toggleSubtask "t_b" true (toggleSubtask "t_a" true inst)])
    = ofZ 6.
Proof. split; vm_compute; reflexivity. Qed.

(** A catalog read from rows of every kind: a subtask row before the first
    task row, a blank line, a row with neither name, and a task whose
    points field is not a number. *)
Example parseMasterTasks_rows_of_every_kind :
  parseMasterTasks []
    (csvOfLines [headerLine;
                 ",orphan,,3";
                 "Run,,10,,06:00,07:00,weekdays,,,,,TRUE";
                 ",warm up,,4";
                 "";
                 ",,7";
                 ",sprint";
                 "Walk the dog,,many,,,,Sun"])
  = [mkTask "run" "Run" (ofZ 10) (Some "06:00") (Some "07:00")
            [Mon; Tue; Wed; Thu; Fri]
            [mkSubtask "run_warm_up" "warm up" (Some (ofZ 4));
             mkSubtask "run_sprint" "sprint" None]
            true;
     mkTask "walk_the_dog" "Walk the dog" zero None None [Sun] [] false].
Proof. vm_compute. reflexivity. Qed.

(** * Further properties *)

(** ** Searching in strings *)

Lemma string_app_cons (x : ascii) (a b : string) :
  String x a +:+ b = String x (a +:+ b).
Proof. reflexivity. Qed.

Lemma string_app_assoc (a b c : string) : (a +:+ b) +:+ c = a +:+ b +:+ c.
Proof.
  induction a as [|x a IH]; [done|]. rewrite !string_app_cons. by rewrite IH.
Qed.

Lemma string_app_nil_r (a : string) : a +:+ "" = a.
Proof. induction a as [|x a IH]; [done|]. rewrite string_app_cons. by rewrite IH. Qed.

Lemma string_app_inv_head (a b c : string) : a +:+ b = a +:+ c → b = c.
Proof.
  induction a as [|x a IH]; [done|]. rewrite !string_app_cons. intros [= H]. auto.
Qed.

Lemma prefix_app (p s : string) :
  startsWith p s = true ↔ ∃ b, s = p +:+ b.
Proof.
  revert s. induction p as [|c p IH]; intros s; cbn.
  - split; [intros _; by exists s|done].
  - destruct s as [|d s]; [split; [done|by intros [b [=]]]|].
    destruct (Ascii.eqb_spec c d) as [->|Hne]; cbn.
    + rewrite IH. split; intros [b Hb]; exists b; [by rewrite Hb|by injection Hb].
    + split; [done|]. intros [b [= <- _]]. done.
Qed.

Lemma length_dropChars_app (p b : string) :
  dropChars (String.length p) (p +:+ b) = b.
Proof. induction p as [|c p IH]; cbn; [by destruct b|done]. Qed.

(** [includes] finds an occurrence exactly when there is one. *)
Lemma includes_occurs (pat s : string) :
  includes pat s = true ↔ ∃ a b, s = a +:+ pat +:+ b.
Proof.
  induction s as [|c s IH]; cbn [includes].
  - destruct (startsWith pat "") eqn:Hp.
    + split; [intros _|done]. apply prefix_app in Hp as [b Hb].
      exists "", b. done.
    + split; [done|]. intros (a & b & Hab).
      destruct a; [|done]. cbn in Hab.
      assert (startsWith pat "" = true) as Hp' by (apply prefix_app; eauto).
      congruence.
  - destruct (startsWith pat (String c s)) eqn:Hp.
    + split; [intros _|done]. apply prefix_app in Hp as [b Hb].
      exists "", b. done.
    + rewrite IH. split.
      * intros (a & b & ->). by exists (String c a), b.
      * intros (a & b & Hab). destruct a as [|c' a].
        -- cbn in Hab.
           assert (startsWith pat (String c s) = true) as Hp'
             by (apply prefix_app; eauto).
           congruence.
        -- injection Hab as -> ->. eauto.
Qed.

Lemma leftmost_nil (test : string → bool) (rest : string) :
  leftmost test "" rest.
Proof. intros a1 a2 H Hne. destruct a1, a2; done. Qed.

Lemma leftmost_cons (test : string → bool) (c : ascii) (a rest : string) :
  test (String c (a +:+ rest)) = false →
  leftmost test a rest → leftmost test (String c a) rest.
Proof.
  intros Hc Ha a1 a2 H Hne. destruct a1 as [|c1 a1].
  - change (String c a = a2) in H. by subst a2.
  - rewrite string_app_cons in H. injection H as -> ->. by apply (Ha a1 a2).
Qed.

(** [replace] with a string pattern rewrites the leftmost occurrence. *)
Lemma replaceFirst_occurs (pat rep s : string) :
  includes pat s = true →
  ∃ a b, s = a +:+ pat +:+ b ∧ leftmost (startsWith pat) a (pat +:+ b)
         ∧ replaceFirst pat rep s = a +:+ rep +:+ b.
Proof.
  induction s as [|c s IH]; cbn [includes replaceFirst].
  - destruct (startsWith pat "") eqn:Hp; [|done]. intros _.
    apply prefix_app in Hp as [b Hb]. exists "", b.
    split; [done|]. split; [apply leftmost_nil|].
    rewrite Hb at 1. by rewrite length_dropChars_app.
  - destruct (startsWith pat (String c s)) eqn:Hp.
    + intros _. apply prefix_app in Hp as [b Hb]. exists "", b.
      split; [done|]. split; [apply leftmost_nil|].
      rewrite Hb at 1. by rewrite length_dropChars_app.
    + intros Hin. destruct (IH Hin) as (a & b & -> & Hl & Hr).
      exists (String c a), b. split; [done|].
      split; [by apply leftmost_cons|]. cbn. by rewrite Hr.
Qed.

Lemma includes_app_l (pat a b : string) :
  includes pat (a +:+ pat +:+ b) = true.
Proof. apply includes_occurs. eauto. Qed.

Lemma takeWhileChars_split (keep : ascii → bool) (s : string) :
  ∃ b, s = takeWhileChars keep s +:+ b
       ∧ allChars keep (takeWhileChars keep s) = true
       ∧ match b with String c _ => keep c = false | EmptyString => True end.
Proof.
  induction s as [|c s (b & Hs & Hk & Hb)]; cbn.
  - by exists "".
  - destruct (keep c) eqn:Hc.
    + exists b. split; [by rewrite Hs at 1|]. split; [|done].
      cbn. by rewrite Hc, Hk.
    + by exists (String c s).
Qed.

(** What [matchAfter] tries at one place. *)
Lemma capture_here (lit : string) (keep : ascii → bool) (t : string) :
  (if startsWith lit t
   then match takeWhileChars keep (dropChars (String.length lit) t) with
        | "" => None | capture => Some capture end
   else None)
  = if matchesHere lit keep t
    then Some (takeWhileChars keep (dropChars (String.length lit) t))
    else None.
Proof.
  unfold matchesHere. destruct (startsWith lit t); [|done]. cbn [andb].
  destruct (dropChars (String.length lit) t) as [|c r]; [done|]. cbn.
  by destruct (keep c).
Qed.

Lemma matchesHere_app (lit : string) (keep : ascii → bool) (t : string) :
  matchesHere lit keep t = true
  ↔ ∃ c b, t = lit +:+ String c b ∧ keep c = true.
Proof.
  unfold matchesHere. rewrite andb_true_iff, prefix_app. split.
  - intros [[r ->] H]. rewrite length_dropChars_app in H.
    destruct r as [|c r]; [done|]. eauto.
  - intros (c & b & -> & Hc). split; [eauto|].
    by rewrite length_dropChars_app.
Qed.

(** No capture: no place where the literal is followed by a unit of the
    class. *)
Lemma matchAfter_None (lit : string) (keep : ascii → bool) (s : string) :
  matchAfter lit keep s = None
  ↔ ¬ ∃ a c b, s = a +:+ lit +:+ String c b ∧ keep c = true.
Proof.
  induction s as [|d s IH]; cbn [matchAfter]; rewrite capture_here.
  - destruct (matchesHere lit keep "") eqn:Hh.
    + split; [done|]. intros H. exfalso. apply H.
      apply matchesHere_app in Hh as (c & b & Hb & Hc). by exists "", c, b.
    + split; [|done]. intros _ (a & c & b & Hb & Hc).
      destruct a; [|done]. change ("" = lit +:+ String c b) in Hb.
      assert (matchesHere lit keep "" = true); [|congruence].
      apply matchesHere_app. eauto.
  - destruct (matchesHere lit keep (String d s)) eqn:Hh.
    + split; [done|]. intros H. exfalso. apply H.
      apply matchesHere_app in Hh as (c & b & Hb & Hc). by exists "", c, b.
    + rewrite IH. split.
      * intros H (a & c & b & Hb & Hc). destruct a as [|d' a].
        -- assert (matchesHere lit keep (String d s) = true); [|congruence].
           apply matchesHere_app. eauto.
        -- rewrite string_app_cons in Hb. injection Hb as -> ->. apply H. eauto.
      * intros H (a & c & b & -> & Hc). apply H.
        exists (String d a), c, b. done.
Qed.

(** A capture is the longest run of units of the class after the leftmost
    place where the literal is followed by such a unit. *)
Lemma matchAfter_Some (lit : string) (keep : ascii → bool) (s cap : string) :
  matchAfter lit keep s = Some cap →
  cap ≠ "" ∧ allChars keep cap = true
  ∧ ∃ a b, s = a +:+ lit +:+ cap +:+ b
           ∧ leftmost (matchesHere lit keep) a (lit +:+ cap +:+ b)
           ∧ match b with String c _ => keep c = false | EmptyString => True end.
Proof.
  assert (∀ t, matchesHere lit keep t = true →
               takeWhileChars keep (dropChars (String.length lit) t) = cap →
               cap ≠ "" ∧ allChars keep cap = true
               ∧ ∃ b, t = lit +:+ cap +:+ b
                      ∧ match b with String c _ => keep c = false
                                | EmptyString => True end) as Hhere.
  { intros t Hm <-. apply matchesHere_app in Hm as (c & r & -> & Hc).
    rewrite length_dropChars_app.
    destruct (takeWhileChars_split keep (String c r)) as (b & Hr & Hk & Hb).
    split; [cbn; by rewrite Hc|]. split; [done|]. exists b.
    by rewrite Hr at 1. }
  induction s as [|d s IH]; cbn [matchAfter]; rewrite capture_here.
  - destruct (matchesHere lit keep "") eqn:Hh; [|done].
    intros [= Hcap]. destruct (Hhere _ Hh Hcap) as (? & ? & b & ? & ?).
    split; [done|]. split; [done|]. exists "", b.
    split; [done|]. split; [apply leftmost_nil|done].
  - destruct (matchesHere lit keep (String d s)) eqn:Hh.
    + intros [= Hcap]. destruct (Hhere _ Hh Hcap) as (? & ? & b & ? & ?).
      split; [done|]. split; [done|]. exists "", b.
      split; [done|]. split; [apply leftmost_nil|done].
    + intros H. destruct (IH H) as (? & ? & a & b & -> & Hl & ?).
      split; [done|]. split; [done|]. exists (String d a), b.
      split; [done|]. split; [by apply leftmost_cons|done].
Qed.

(** ** Normalisation of the sheet address *)

(** X1. [getCsvUrl] throws exactly when the address contains none of
    [/pub?output=csv], [/pubhtml], and [spreadsheets/d/] followed by a
    letter, a digit, a hyphen or an underscore; the error then carries
    the fixed message on invalid links. *)
Theorem getCsvUrl_throws (url message : string) :
  getCsvUrl url = Thrown message
  ↔ message = invalidUrlMessage
    ∧ ¬ (∃ a b, url = a +:+ "/pub?output=csv" +:+ b)
    ∧ ¬ (∃ a b, url = a +:+ "/pubhtml" +:+ b)
    ∧ ¬ (∃ a c b, url = a +:+ "spreadsheets/d/" +:+ String c b
                  ∧ isSheetIdChar c = true).
Proof.
  unfold getCsvUrl. rewrite <- !includes_occurs, <- matchAfter_None.
  destruct (includes "/pub?output=csv" url).
  { split; [done|]. intros (_ & H & _). by destruct H. }
  destruct (includes "/pubhtml" url).
  { split; [done|]. intros (_ & _ & H & _). by destruct H. }
  destruct (matchAfter "spreadsheets/d/" isSheetIdChar url).
  { split; [done|]. by intros (_ & _ & _ & H). }
  split.
  - intros [= <-]. done.
  - by intros (-> & _).
Qed.

(** X2. When [getCsvUrl] returns, the result is settled by the first of
    three cases that applies. The address contains [/pub?output=csv]:
    the result is the address itself. Otherwise it contains [/pubhtml]:
    the result is the address with its leftmost [/pubhtml] replaced by
    [/pub?output=csv]. Otherwise: the result is the export link built
    from the sheet id, the longest run of id characters at the leftmost
    place where [spreadsheets/d/] is followed by one, and from the gid,
    which is the longest run of digits at the leftmost place of the
    address where [gid=] is followed by a digit, and [0] when the
    address has no such place.
    In the first two cases the result contains [/pub?output=csv], so
    [getCsvUrl] returns it unchanged. *)
Theorem getCsvUrl_returns (url csvUrl : string) :
  getCsvUrl url = Returned csvUrl →
  ((∃ a b, url = a +:+ "/pub?output=csv" +:+ b) ∧ csvUrl = url
   ∧ getCsvUrl csvUrl = Returned csvUrl)
  ∨ ((¬ ∃ a b, url = a +:+ "/pub?output=csv" +:+ b)
     ∧ (∃ a b, url = a +:+ "/pubhtml" +:+ b
               ∧ leftmost (startsWith "/pubhtml") a ("/pubhtml" +:+ b)
               ∧ csvUrl = a +:+ "/pub?output=csv" +:+ b)
     ∧ getCsvUrl csvUrl = Returned csvUrl)
  ∨ ((¬ ∃ a b, url = a +:+ "/pub?output=csv" +:+ b)
     ∧ (¬ ∃ a b, url = a +:+ "/pubhtml" +:+ b)
     ∧ ∃ a sheetId b,
         url = a +:+ "spreadsheets/d/" +:+ sheetId +:+ b
         ∧ leftmost (matchesHere "spreadsheets/d/" isSheetIdChar) a
             ("spreadsheets/d/" +:+ sheetId +:+ b)
         ∧ sheetId ≠ "" ∧ allChars isSheetIdChar sheetId = true
         ∧ match b with String c _ => isSheetIdChar c = false
                   | EmptyString => True end
         ∧ ((∃ g gid h,
               url = g +:+ "gid=" +:+ gid +:+ h
               ∧ leftmost (matchesHere "gid=" isDigit) g
                   ("gid=" +:+ gid +:+ h)
               ∧ gid ≠ "" ∧ allChars isDigit gid = true
               ∧ match h with String c _ => isDigit c = false
                         | EmptyString => True end
               ∧ csvUrl = exportUrl sheetId gid)
            ∨ ((¬ ∃ g c h, url = g +:+ "gid=" +:+ String c h
                           ∧ isDigit c = true)
               ∧ csvUrl = exportUrl sheetId "0"))).
Proof.
  unfold getCsvUrl at 1.
  destruct (includes "/pub?output=csv" url) eqn:Hcsv.
  { intros [= <-]. left. split; [by apply includes_occurs|]. split; [done|].
    unfold getCsvUrl. by rewrite Hcsv. }
  assert (¬ ∃ a b, url = a +:+ "/pub?output=csv" +:+ b) as Hnocsv.
  { intros Hocc. apply includes_occurs in Hocc. congruence. }
  destruct (includes "/pubhtml" url) eqn:Hhtml.
  { intros [= <-]. right. left. split; [done|].
    destruct (replaceFirst_occurs "/pubhtml" "/pub?output=csv" url Hhtml)
      as (a & b & Hurl & Hleft & Hrep).
    split; [by exists a, b|].
    unfold getCsvUrl. rewrite Hrep at 1. by rewrite includes_app_l. }
  assert (¬ ∃ a b, url = a +:+ "/pubhtml" +:+ b) as Hnohtml.
  { intros Hocc. apply includes_occurs in Hocc. congruence. }
  destruct (matchAfter "spreadsheets/d/" isSheetIdChar url) as [sheetId|] eqn:Hid;
    [|done].
  intros [= <-]. right. right. split; [done|]. split; [done|].
  apply matchAfter_Some in Hid as (Hne & Hchars & a & b & Hurl & Hleft & Hb).
  exists a, sheetId, b.
  do 5 (split; [done|]).
  destruct (matchAfter "gid=" isDigit url) as [gid|] eqn:Hgid.
  - apply matchAfter_Some in Hgid
      as (Hgne & Hgchars & g & h & Hgurl & Hgleft & Hh).
    left. by exists g, gid, h.
  - apply matchAfter_None in Hgid. by right.
Qed.

(** Witness of X2 on a sharing link with a gid, a published page and a
    published sheet. *)
Lemma getCsvUrl_returns_witness :
  getCsvUrl "https://docs.google.com/spreadsheets/d/1AbC-d_9/edit#gid=123"
  = Returned "https://docs.google.com/spreadsheets/d/1AbC-d_9/export?format=csv&gid=123"
  ∧ getCsvUrl "https://docs.google.com/spreadsheets/d/e/2PACX-1v/pubhtml"
    = Returned "https://docs.google.com/spreadsheets/d/e/2PACX-1v/pub?output=csv"
  ∧ getCsvUrl "https://docs.google.com/spreadsheets/d/e/2PACX-1v/pub?output=csv"
    = Returned "https://docs.google.com/spreadsheets/d/e/2PACX-1v/pub?output=csv".
Proof.
  pose proof (getCsvUrl_returns
                "https://docs.google.com/spreadsheets/d/e/2PACX-1v/pubhtml"
                "https://docs.google.com/spreadsheets/d/e/2PACX-1v/pub?output=csv"
                eq_refl) as H.
  split; [reflexivity|]. split; [reflexivity|].
  destruct H as [(_ & _ & H)|[(_ & _ & H)|H]]; [exact H|exact H|reflexivity].
Defined.

(** ** Ids made by [slug] *)

Lemma allChars_app (keep : ascii → bool) (a b : string) :
  allChars keep (a +:+ b) = allChars keep a && allChars keep b.
Proof.
  induction a as [|c a IH]; [done|]. rewrite string_app_cons.
  cbn [allChars]. by rewrite IH, andb_assoc.
Qed.

Lemma allChars_filterChars (keep : ascii → bool) (s : string) :
  allChars keep (filterChars keep s) = true.
Proof.
  induction s as [|c s IH]; [done|]. cbn [filterChars].
  destruct (keep c) eqn:Hc; [|done]. cbn [allChars]. by rewrite Hc.
Qed.

Lemma filterChars_allChars (keep : ascii → bool) (s : string) :
  allChars keep s = true → filterChars keep s = s.
Proof.
  induction s as [|c s IH]; [done|]. cbn [allChars filterChars].
  intros [Hc Hs]%andb_true_iff. rewrite Hc. by rewrite IH.
Qed.

Lemma filterChars_app (keep : ascii → bool) (a b : string) :
  filterChars keep (a +:+ b) = filterChars keep a +:+ filterChars keep b.
Proof.
  induction a as [|c a IH]; [done|]. rewrite string_app_cons.
  cbn [filterChars]. destruct (keep c); [rewrite string_app_cons|]; by rewrite IH.
Qed.

Lemma toLowerCase_app (a b : string) :
  toLowerCase (a +:+ b) = toLowerCase a +:+ toLowerCase b.
Proof.
  induction a as [|c a IH]; [done|]. rewrite string_app_cons.
  cbn [toLowerCase]. by rewrite string_app_cons, IH.
Qed.

Lemma collapseBlanks_app_mark (inRun : bool) (a b : string) (u : ascii) :
  isWhiteSpace u = false →
  collapseBlanks inRun (a +:+ String u b)
  = collapseBlanks inRun a +:+ String u (collapseBlanks false b).
Proof.
  intros Hu. revert inRun. induction a as [|c a IH]; intros inRun.
  - change ("" +:+ String u b) with (String u b).
    cbn [collapseBlanks]. by rewrite Hu.
  - rewrite string_app_cons. cbn [collapseBlanks].
    destruct (isWhiteSpace c); [destruct inRun|];
      by rewrite ?string_app_cons, IH.
Qed.

(** A unit of the slug class is its own lower case and is not a blank. *)
Lemma isSlugChar_plain (c : ascii) :
  isSlugChar c = true → lowerChar c = c ∧ isWhiteSpace c = false.
Proof.
  destruct c as [[] [] [] [] [] [] [] []]; vm_compute; intros H;
    first [discriminate H | split; reflexivity].
Qed.

Lemma slug_plain (s : string) :
  allChars isSlugChar s = true → slug s = s.
Proof.
  intros Hs. unfold slug.
  assert (toLowerCase s = s) as ->.
  { induction s as [|c s IH]; [done|]. cbn [allChars toLowerCase] in *.
    apply andb_true_iff in Hs as [Hc Hs].
    destruct (isSlugChar_plain c Hc) as [-> _]. by rewrite IH. }
  assert (∀ inRun, collapseBlanks inRun s = s) as ->.
  { induction s as [|c s IH]; [done|]. intros inRun.
    cbn [allChars collapseBlanks] in *.
    apply andb_true_iff in Hs as [Hc Hs].
    destruct (isSlugChar_plain c Hc) as [_ ->]. by rewrite IH. }
  by apply filterChars_allChars.
Qed.

(** X3. An id made by [slug] holds only lower-case letters, digits and
    underscores, and [slug] leaves such a string as it is: applying
    [slug] twice gives the same id as applying it once. *)
Theorem slug_normal_form (s : string) :
  allChars isSlugChar (slug s) = true ∧ slug (slug s) = slug s.
Proof.
  assert (allChars isSlugChar (slug s) = true) as H
    by apply allChars_filterChars.
  split; [done|]. by apply slug_plain.
Qed.

(** The id of a subtask is made of the slug of the parent name, an
    underscore and the slug of the subtask name. *)
Lemma slug_join (parent name : string) :
  slug (parent +:+ "_" +:+ name) = slug parent +:+ "_" +:+ slug name.
Proof.
  unfold slug. rewrite toLowerCase_app.
  change (toLowerCase ("_" +:+ name)) with (String underscore (toLowerCase name)).
  rewrite collapseBlanks_app_mark by done.
  rewrite filterChars_app. done.
Qed.

Lemma Forall_subtasksBelow (P : Subtask → Prop) (parent : string) (rows : list Row) :
  (∀ subtaskName columns, SubtaskRow subtaskName columns ∈ rows →
     P (subtaskOfColumns parent subtaskName columns)) →
  Forall P (subtasksBelow parent rows).
Proof.
  induction rows as [|[taskName columns|subtaskName columns|] rows IH];
    intros H; cbn; [done|done| |].
  - constructor.
    + apply H. apply elem_of_cons. by left.
    + apply IH. intros n c Hin. apply H. apply elem_of_cons. by right.
  - apply IH. intros n c Hin. apply H. apply elem_of_cons. by right.
Qed.

(** A property of every task of the catalog follows from a property of the
    task rows and of the subtask rows. *)
Lemma Forall_catalogOfRows (P : Task → Prop) (rows : list Row) :
  (∀ taskName columns subs,
     TaskRow taskName columns ∈ rows →
     (∀ sub, sub ∈ subs →
        ∃ subtaskName columns',
          SubtaskRow subtaskName columns' ∈ rows
          ∧ sub = subtaskOfColumns taskName subtaskName columns') →
     P (withSubtasks (taskOfColumns taskName columns) subs)) →
  Forall P (catalogOfRows rows).
Proof.
  induction rows as [|row rows IH]; intros H; [constructor|].
  assert (Forall P (catalogOfRows rows)) as Hrest.
  { apply IH. intros n c subs Hin Hsubs. apply H.
    - apply elem_of_cons. by right.
    - intros sub Hsub. destruct (Hsubs sub Hsub) as (sn & c' & Hin' & ->).
      exists sn, c'. split; [|done]. apply elem_of_cons. by right. }
  destruct row as [taskName columns|subtaskName columns|]; cbn; [|done|done].
  constructor; [|done]. apply H; [apply elem_of_cons; by left|].
  intros sub Hsub. clear -Hsub.
  induction rows as [|[n c|n c|] rows IH]; cbn in Hsub.
  - by apply elem_of_nil in Hsub.
  - by apply elem_of_nil in Hsub.
  - apply elem_of_cons in Hsub as [->|Hsub].
    + exists n, c. split; [|done]. apply elem_of_cons. right.
      apply elem_of_cons. by left.
    + destruct (IH Hsub) as (sn & c' & Hin & ->). exists sn, c'.
      split; [|done]. apply elem_of_cons in Hin as [Hin|Hin]; [done|].
      apply elem_of_cons. right. apply elem_of_cons. by right.
  - destruct (IH Hsub) as (sn & c' & Hin & ->). exists sn, c'.
    split; [|done]. apply elem_of_cons in Hin as [Hin|Hin]; [done|].
    apply elem_of_cons. right. apply elem_of_cons. by right.
Qed.

(** X4. In a catalog read by [parseMasterTasks], the id of every task is
    the slug of its name, and the id of every subtask is the id of its
    task, an underscore, and the slug of the subtask name. *)
Theorem parsed_ids_derived (csv : string) :
  Forall (fun t =>
            task_id t = slug (task_name t)
            ∧ Forall (fun sub =>
                        sub_id sub = task_id t +:+ "_" +:+ slug (sub_name sub))
                     (subtasks t))
         (parseMasterTasks [] csv).
Proof.
  unfold parseMasterTasks. rewrite parse_loop_start. cbn [app].
  apply Forall_catalogOfRows. intros taskName columns subs _ Hsubs.
  cbn. split; [done|]. apply Forall_forall. intros sub Hsub.
  destruct (Hsubs sub Hsub) as (sn & c' & _ & ->). cbn. apply slug_join.
Qed.

(** ** Fields delivered by the parser *)

Lemma allChars_trimStart (keep : ascii → bool) (s : string) :
  allChars keep s = true → allChars keep (trimStart s) = true.
Proof.
  induction s as [|c s IH]; [done|]. cbn [trimStart].
  destruct (isWhiteSpace c); [|done]. cbn [allChars].
  intros [_ Hs]%andb_true_iff. auto.
Qed.

Lemma allChars_trimEnd (keep : ascii → bool) (s : string) :
  allChars keep s = true → allChars keep (trimEnd s) = true.
Proof.
  induction s as [|c s IH]; [done|]. cbn [trimEnd allChars].
  intros [Hc Hs]%andb_true_iff. specialize (IH Hs).
  destruct (trimEnd s) as [|d e].
  - destruct (isWhiteSpace c); [done|]. cbn. by rewrite Hc.
  - cbn [allChars] in *. by rewrite Hc, IH.
Qed.

Lemma allChars_trim (keep : ascii → bool) (s : string) :
  allChars keep s = true → allChars keep (trim s) = true.
Proof. intros H. by apply allChars_trimEnd, allChars_trimStart. Qed.

Lemma allChars_filterChars_keep (keep sel : ascii → bool) (s : string) :
  allChars keep s = true → allChars keep (filterChars sel s) = true.
Proof.
  induction s as [|c s IH]; [done|]. cbn [allChars filterChars].
  intros [Hc Hs]%andb_true_iff.
  destruct (sel c); [cbn [allChars]; rewrite Hc|]; auto.
Qed.

Lemma trimEnd_idem (s : string) : trimEnd (trimEnd s) = trimEnd s.
Proof.
  induction s as [|c s IH]; [done|]. cbn [trimEnd].
  destruct (trimEnd s) as [|d e] eqn:He.
  - destruct (isWhiteSpace c) eqn:Hc; [done|]. cbn. by rewrite Hc.
  - cbn [trimEnd]. cbn [trimEnd] in IH. by rewrite IH.
Qed.

Lemma startsPlain_trimStart (s : string) : startsPlain (trimStart s).
Proof.
  induction s as [|c s IH]; [done|]. cbn [trimStart].
  by destruct (isWhiteSpace c) eqn:Hc.
Qed.

Lemma startsPlain_trimEnd (s : string) : startsPlain s → startsPlain (trimEnd s).
Proof.
  destruct s as [|c s]; [done|]. cbn [startsPlain trimEnd]. intros Hc.
  destruct (trimEnd s); [by rewrite Hc|done].
Qed.

Lemma trimStart_plain (s : string) : startsPlain s → trimStart s = s.
Proof. destruct s as [|c s]; [done|]. cbn. by intros ->. Qed.

(** [trim] is idempotent. *)
Lemma trim_idem (s : string) : trim (trim s) = trim s.
Proof.
  unfold trim. rewrite (trimStart_plain (trimEnd (trimStart s))).
  - apply trimEnd_idem.
  - apply startsPlain_trimEnd, startsPlain_trimStart.
Qed.

Lemma consHead_Forall (P : string → Prop) (c : ascii) (pieces : list string) :
  (∀ h, P h → P (String c h)) → P (String c "") →
  Forall P pieces → Forall P (consHead c pieces).
Proof.
  intros Hcons Hone Hall. destruct Hall as [|h t Hh Ht]; cbn.
  - by constructor.
  - constructor; auto.
Qed.

(** The pieces of [split] do not hold the separator. *)
Lemma split_noChar (sep : ascii) (s : string) :
  Forall (fun piece => noChar sep piece = true) (split sep s).
Proof.
  induction s as [|c s IH]; cbn [split]; [by repeat constructor|].
  destruct (Ascii.eqb c sep) eqn:Hc; [by constructor|].
  apply consHead_Forall; [| |done].
  - intros h Hh. unfold noChar in *. cbn [allChars]. by rewrite Hc, Hh.
  - unfold noChar. cbn [allChars]. by rewrite Hc.
Qed.

(** Without the separator there is one piece. *)
Lemma split_one (sep : ascii) (s : string) :
  noChar sep s = true → split sep s = [s].
Proof.
  induction s as [|c s IH]; [done|]. unfold noChar in *. cbn [allChars split].
  intros [Hc Hs]%andb_true_iff. apply negb_true_iff in Hc. rewrite Hc.
  by rewrite IH.
Qed.

Lemma splitLines_noChar (s : string) :
  Forall (fun line => noChar LF line = true) (splitLines s).
Proof.
  assert (∀ c pieces, Ascii.eqb c LF = false →
            Forall (fun line => noChar LF line = true) pieces →
            Forall (fun line => noChar LF line = true) (consHead c pieces)) as Hcons.
  { intros c pieces Hc. apply consHead_Forall.
    - intros h Hh. unfold noChar in *. cbn [allChars]. by rewrite Hc, Hh.
    - unfold noChar. cbn [allChars]. by rewrite Hc. }
  remember (String.length s) as n eqn:Hn.
  revert s Hn. induction n as [n IH] using lt_wf_ind. intros s ->.
  assert (∀ r, String.length r < String.length s →
            Forall (fun line => noChar LF line = true) (splitLines r)) as IH'
    by (intros r Hr; by apply (IH _ Hr)).
  clear IH. rename IH' into IH.
  destruct s as [|c s]; cbn [splitLines]; [by repeat constructor|].
  destruct (Ascii.eqb c LF) eqn:Hc.
  { constructor; [done|]. apply IH. cbn. lia. }
  assert (Forall (fun line => noChar LF line = true) (consHead c (splitLines s)))
    as Hrest by (apply Hcons; [done|apply IH; cbn; lia]).
  destruct (Ascii.eqb c CR); [|done].
  destruct s as [|c' s']; [done|].
  destruct (Ascii.eqb c' LF); [|done].
  constructor; [done|]. apply IH. cbn. lia.
Qed.

Lemma columnsOf_clean (line : string) :
  Forall cleanField (columnsOf line).
Proof.
  unfold columnsOf. apply Forall_fmap.
  eapply Forall_impl; [apply (split_noChar comma line)|].
  intros piece Hpiece. cbn. unfold cleanField. split; [apply trim_idem|].
  split.
  - by apply allChars_trim, allChars_filterChars_keep.
  - apply allChars_trim. apply (allChars_filterChars _ piece).
Qed.

Lemma columnsOf_noLF (line : string) :
  noChar LF line = true →
  Forall (fun field => noChar LF field = true) (columnsOf line).
Proof.
  intros Hline. unfold columnsOf. apply Forall_fmap, Forall_forall.
  intros piece Hpiece. cbn. apply allChars_trim, allChars_filterChars_keep.
  revert piece Hpiece. apply Forall_forall.
  induction line as [|c s IH]; cbn [split]; [by repeat constructor|].
  unfold noChar in Hline. cbn [allChars] in Hline.
  apply andb_true_iff in Hline as [Hc Hs].
  destruct (Ascii.eqb c comma); [constructor; [done|by apply IH]|].
  apply consHead_Forall; [| |by apply IH].
  - intros h Hh. unfold noChar in *. cbn [allChars].
    apply andb_true_intro. by split.
  - unfold noChar. cbn [allChars]. apply andb_true_intro. by split.
Qed.

Lemma nonEmpty_Some (x : option string) (s : string) :
  nonEmpty x = Some s ↔ x = Some s ∧ s ≠ "".
Proof.
  unfold nonEmpty, truthyString. destruct x as [t|]; [|by split; [|intros []]].
  destruct (String.eqb_spec t "") as [->|Hne]; cbn.
  - split; [done|]. by intros [[= <-] ?].
  - split; [intros [= <-]; done|by intros [? _]].
Qed.

(** What [classify] tells about the line of a row. *)
Lemma classify_TaskRow (line taskName : string) (columns : list string) :
  classify line = TaskRow taskName columns →
  columns = columnsOf line ∧ columns !! 0%nat = Some taskName ∧ taskName ≠ "".
Proof.
  unfold classify. destruct (String.eqb (trim line) ""); [done|]. cbn zeta.
  destruct (nonEmpty (columnsOf line !! 0%nat)) as [n|] eqn:Hn.
  - intros [= <- <-]. by apply nonEmpty_Some in Hn as [? ?].
  - by destruct (nonEmpty (columnsOf line !! 1%nat)).
Qed.

Lemma classify_SubtaskRow (line subtaskName : string) (columns : list string) :
  classify line = SubtaskRow subtaskName columns →
  columns = columnsOf line ∧ columns !! 1%nat = Some subtaskName
  ∧ subtaskName ≠ "".
Proof.
  unfold classify. destruct (String.eqb (trim line) ""); [done|]. cbn zeta.
  destruct (nonEmpty (columnsOf line !! 0%nat)) as [n|]; [done|].
  destruct (nonEmpty (columnsOf line !! 1%nat)) as [n|] eqn:Hn; [|done].
  intros [= <- <-]. by apply nonEmpty_Some in Hn as [? ?].
Qed.

Lemma dataLines_noLF (csv line : string) :
  line ∈ dataLines csv → noChar LF line = true.
Proof.
  unfold dataLines. intros Hin.
  pose proof (splitLines_noChar csv) as Hall.
  destruct (splitLines csv) as [|h t]; cbn in Hin.
  - by apply elem_of_nil in Hin.
  - inversion Hall as [|? ? _ Ht]; subst.
    by apply (proj1 (Forall_forall _ _) Ht).
Qed.

(** X5. In a catalog read by [parseMasterTasks], every task name and every
    subtask name is non-empty, has no blank at either end, and holds no
    comma, no double quote and no line feed. *)
Theorem parsed_names_clean (csv : string) :
  Forall (fun t =>
            (task_name t ≠ "" ∧ cleanField (task_name t)
             ∧ noChar LF (task_name t) = true)
            ∧ Forall (fun sub =>
                        sub_name sub ≠ "" ∧ cleanField (sub_name sub)
                        ∧ noChar LF (sub_name sub) = true)
                     (subtasks t))
         (parseMasterTasks [] csv).
Proof.
  unfold parseMasterTasks. rewrite parse_loop_start. cbn [app].
  assert (∀ line field k, line ∈ dataLines csv →
            columnsOf line !! k = Some field →
            cleanField field ∧ noChar LF field = true) as Hfield.
  { intros line field k Hline Hk. split.
    - by apply (proj1 (Forall_lookup _ _) (columnsOf_clean line) k).
    - apply (proj1 (Forall_lookup _ _)
                (columnsOf_noLF line (dataLines_noLF _ _ Hline)) k field Hk). }
  apply Forall_catalogOfRows. intros taskName columns subs Hrow Hsubs.
  cbn [task_name withSubtasks taskOfColumns subtasks app]. split.
  - apply list_elem_of_fmap in Hrow as (line & Hcl & Hline).
    symmetry in Hcl. apply classify_TaskRow in Hcl as (-> & Hk & Hne).
    split; [done|]. by apply (Hfield line taskName 0%nat).
  - apply Forall_forall. intros sub Hsub.
    destruct (Hsubs sub Hsub) as (sn & c' & Hrow' & ->).
    apply list_elem_of_fmap in Hrow' as (line & Hcl & Hline).
    symmetry in Hcl. apply classify_SubtaskRow in Hcl as (-> & Hk & Hne).
    cbn [sub_name subtaskOfColumns]. split; [done|].
    by apply (Hfield line sn 1%nat).
Qed.

(** X6. In a catalog read by [parseMasterTasks], the days of a task are
    the seven days, Monday to Friday, the weekend, a single day, or no
    day at all: a line is cut at every comma before the days field is
    decoded, so the comma list of [parseDays] never gets more than one
    piece. *)
Theorem parsed_days_shapes (csv : string) :
  Forall (fun t =>
            daysOfWeek t = allDays
            ∨ daysOfWeek t = [Mon; Tue; Wed; Thu; Fri]
            ∨ daysOfWeek t = [Sat; Sun]
            ∨ daysOfWeek t = []
            ∨ ∃ d, daysOfWeek t = [d])
         (parseMasterTasks [] csv).
Proof.
  unfold parseMasterTasks. rewrite parse_loop_start. cbn [app].
  apply Forall_catalogOfRows. intros taskName columns subs Hrow _.
  cbn [daysOfWeek withSubtasks taskOfColumns].
  apply list_elem_of_fmap in Hrow as (line & Hcl & _).
  symmetry in Hcl. apply classify_TaskRow in Hcl as (-> & _ & _).
  destruct (columnsOf line !! 6%nat) as [field|] eqn:Hk; [|by left].
  pose proof (proj1 (Forall_lookup _ _) (columnsOf_clean line) _ _ Hk)
    as (_ & Hcomma & _).
  unfold parseDays.
  destruct (_ || _); [by left|].
  destruct (String.eqb _ "weekdays"); [by right; left|].
  destruct (String.eqb _ "weekend"); [by right; right; left|].
  rewrite (split_one _ _ Hcomma). cbn [map omap list_omap].
  destruct (dayOfString (trim field)) as [d|].
  - do 4 right. by exists d.
  - by do 3 right; left.
Qed.

(** ** Catalog already present, header line *)

(** X7. [parseMasterTasks] appends: the tasks already in the catalog stay
    as they are, in place, and what is read from the sheet follows them
    exactly as it would follow an empty catalog. In particular a subtask
    row that comes before the first task row of the sheet is not attached
    to a task read earlier. *)
Theorem parseMasterTasks_appends (before : list Task) (csv : string) :
  parseMasterTasks before csv = before ++ parseMasterTasks [] csv.
Proof.
  unfold parseMasterTasks. by rewrite !parse_loop_start.
Qed.

Lemma splitLines_header (header body : string) :
  noChar LF header = true →
  ∃ first, splitLines (header +:+ String LF body) = first :: splitLines body.
Proof.
  induction header as [|c h IH]; intros Hh.
  - exists "". done.
  - unfold noChar in Hh. cbn [allChars] in Hh.
    apply andb_true_iff in Hh as [Hc Hh]. apply negb_true_iff in Hc.
    destruct (IH Hh) as [first Hfirst].
    rewrite string_app_cons. cbn [splitLines]. rewrite Hc, Hfirst.
    destruct (Ascii.eqb c CR); [|by eexists].
    destruct h as [|c' h'].
    + change ("" +:+ String LF body) with (String LF body).
      exists "". done.
    + rewrite string_app_cons.
      unfold noChar in Hh. cbn [allChars] in Hh.
      apply andb_true_iff in Hh as [Hc' _]. apply negb_true_iff in Hc'.
      rewrite Hc'. by eexists.
Qed.

Lemma splitLines_one (csv : string) :
  noChar LF csv = true → ∃ line, splitLines csv = [line].
Proof.
  induction csv as [|c s IH]; intros Hs; [by eexists|].
  unfold noChar in Hs. cbn [allChars] in Hs.
  apply andb_true_iff in Hs as [Hc Hs]. apply negb_true_iff in Hc.
  destruct (IH Hs) as [line Hline].
  cbn [splitLines]. rewrite Hc, Hline.
  destruct (Ascii.eqb c CR); [|by eexists].
  destruct s as [|c' s']; [by eexists|].
  unfold noChar in Hs. cbn [allChars] in Hs.
  apply andb_true_iff in Hs as [Hc' _]. apply negb_true_iff in Hc'.
  rewrite Hc'. by eexists.
Qed.

(** X8. The first line of the sheet is never read: whatever stands before
    the first line feed, the catalog is the one read with nothing there;
    and a sheet without a line feed adds no task. *)
Theorem parseMasterTasks_skips_header (before : list Task) (header : string) :
  noChar LF header = true →
  parseMasterTasks before header = before
  ∧ ∀ body, parseMasterTasks before (header +:+ String LF body)
            = parseMasterTasks before (String LF body).
Proof.
  intros Hh. split.
  - destruct (splitLines_one header Hh) as [line Hline].
    unfold parseMasterTasks, dataLines. by rewrite Hline.
  - intros body. destruct (splitLines_header header body Hh) as [first Hfirst].
    unfold parseMasterTasks, dataLines. by rewrite Hfirst.
Qed.

Lemma parseMasterTasks_skips_header_witness :
  parseMasterTasks [] "Task,Subtask,Points" = []
  ∧ ∀ body, parseMasterTasks [] ("Task,Subtask,Points" +:+ String LF body)
            = parseMasterTasks [] (String LF body).
Proof.
  apply (parseMasterTasks_skips_header [] "Task,Subtask,Points").
  reflexivity.
Defined.

(** ** Rows of the sheet as text *)

Lemma concat_cons2 (sep x y : string) (rest : list string) :
  String.concat sep (x :: y :: rest) = x +:+ sep +:+ String.concat sep (y :: rest).
Proof. reflexivity. Qed.

Lemma allChars_concat (keep : ascii → bool) (sep : string) (l : list string) :
  allChars keep sep = true →
  Forall (fun x => allChars keep x = true) l →
  allChars keep (String.concat sep l) = true.
Proof.
  intros Hsep Hl. induction Hl as [|x l Hx Hl IH]; [done|].
  destruct l as [|y l]; [done|].
  rewrite concat_cons2, !allChars_app, Hx, Hsep, IH. done.
Qed.

(** A line without line feed, followed by a line feed: [splitLines]
    gives the line, without the carriage return that may end it, and goes
    on with what follows. *)
Lemma splitLines_first (line body : string) :
  noChar LF line = true →
  ∃ read, splitLines (line +:+ String LF body) = read :: splitLines body
          ∧ sameLine line read.
Proof.
  induction line as [|c h IH]; intros Hh.
  - exists "". split; [done|by left].
  - unfold noChar in Hh. cbn [allChars] in Hh.
    apply andb_true_iff in Hh as [Hc Hh]. apply negb_true_iff in Hc.
    destruct (IH Hh) as (read & Hread & Hsame).
    rewrite string_app_cons. cbn [splitLines]. rewrite Hc, Hread.
    assert (sameLine (String c h) (String c read)) as Hcons.
    { destruct Hsame as [-> | ->]; [by left|by right]. }
    destruct (Ascii.eqb_spec c CR) as [->|_]; [|by eexists].
    destruct h as [|c' h'].
    + change ("" +:+ String LF body) with (String LF body).
      exists "". split; [done|by right].
    + rewrite string_app_cons.
      unfold noChar in Hh. cbn [allChars] in Hh.
      apply andb_true_iff in Hh as [Hc' _]. apply negb_true_iff in Hc'.
      rewrite Hc'. by eexists.
Qed.

Lemma splitLines_single (line : string) :
  noChar LF line = true → splitLines line = [line].
Proof.
  induction line as [|c s IH]; intros Hs; [done|].
  unfold noChar in Hs. cbn [allChars] in Hs.
  apply andb_true_iff in Hs as [Hc Hs]. apply negb_true_iff in Hc.
  cbn [splitLines]. rewrite Hc, (IH Hs).
  destruct (Ascii.eqb c CR); [|done].
  destruct s as [|c' s']; [done|].
  unfold noChar in Hs. cbn [allChars] in Hs.
  apply andb_true_iff in Hs as [Hc' _]. apply negb_true_iff in Hc'.
  by rewrite Hc'.
Qed.

(** The lines read from lines joined by line feeds. *)
Lemma splitLines_concat (first : string) (lines : list string) :
  Forall (fun line => noChar LF line = true) (first :: lines) →
  ∃ read reads,
    splitLines (String.concat (String LF "") (first :: lines)) = read :: reads
    ∧ sameLine first read
    ∧ Forall2 sameLine lines reads.
Proof.
  revert first. induction lines as [|line lines IH]; intros first Hall;
    apply Forall_cons in Hall as [Hfirst Hrest].
  - exists first, []. split; [by apply splitLines_single|].
    split; [by left|constructor].
  - destruct (IH line Hrest) as (read & reads & Hsplit & Hline & Hsame).
    rewrite concat_cons2.
    change (String LF "" +:+ ?x) with (String LF x).
    destruct (splitLines_first first
                (String.concat (String LF "") (line :: lines)) Hfirst)
      as (read0 & Hread0 & Hsame0).
    rewrite Hread0, Hsplit. exists read0, (read :: reads).
    split; [done|]. split; [done|]. by constructor.
Qed.

(** Blanks at the end are removed by [trim]. *)
Lemma trimEnd_app_CR (s : string) :
  trimEnd (s +:+ String CR "") = trimEnd s.
Proof.
  induction s as [|c s IH]; [done|].
  rewrite string_app_cons. cbn [trimEnd]. by rewrite IH.
Qed.

Lemma trim_app_CR (s : string) : trim (s +:+ String CR "") = trim s.
Proof.
  unfold trim. induction s as [|c s IH]; [done|].
  rewrite string_app_cons. cbn [trimStart].
  destruct (isWhiteSpace c); [exact IH|].
  apply (trimEnd_app_CR (String c s)).
Qed.

Lemma nameOfField_app_CR (field : string) :
  nameOfField (field +:+ String CR "") = nameOfField field.
Proof.
  unfold nameOfField, removeQuotes. rewrite filterChars_app.
  apply trim_app_CR.
Qed.

(** A string without the separator appended to a string: it goes to the
    last piece. *)
Lemma consHead_appendLast (c : ascii) (t : string) (pieces : list string) :
  pieces ≠ [] →
  consHead c (appendLast t pieces) = appendLast t (consHead c pieces).
Proof.
  intros Hne. destruct pieces as [|p [|q rest]]; [done|done|done].
Qed.

Lemma split_nonempty (sep : ascii) (s : string) : split sep s ≠ [].
Proof.
  induction s as [|c s IH]; cbn [split]; [done|].
  destruct (Ascii.eqb c sep); [done|].
  by destruct (split sep s).
Qed.

Lemma split_app_last (sep : ascii) (s t : string) :
  noChar sep t = true →
  split sep (s +:+ t) = appendLast t (split sep s).
Proof.
  intros Ht. induction s as [|c s IH].
  - change ("" +:+ t) with t. by rewrite split_one.
  - rewrite string_app_cons. cbn [split]. rewrite IH.
    destruct (Ascii.eqb c sep).
    + pose proof (split_nonempty sep s). by destruct (split sep s).
    + apply consHead_appendLast, split_nonempty.
Qed.

Lemma map_nameOfField_appendLast (pieces : list string) :
  map nameOfField (appendLast (String CR "") pieces) = map nameOfField pieces.
Proof.
  induction pieces as [|p [|q rest] IH]; [done| |].
  - cbn. by rewrite nameOfField_app_CR.
  - change (appendLast ?t (p :: q :: rest)) with (p :: appendLast t (q :: rest)).
    cbn [map]. by rewrite IH.
Qed.

Lemma columnsOf_nameOfField (line : string) :
  columnsOf line = map nameOfField (split comma line).
Proof. reflexivity. Qed.

(** A carriage return at the end of a line makes no difference to the
    row read from it. *)
Lemma classify_sameLine (line read : string) :
  sameLine line read → classify read = classify line.
Proof.
  intros [-> | ->]; [done|]. unfold classify.
  rewrite trim_app_CR, !columnsOf_nameOfField.
  rewrite split_app_last by done.
  by rewrite map_nameOfField_appendLast.
Qed.

(** Fields without comma, joined by commas, are what [split] gives
    back. *)
Lemma split_app_sep (sep : ascii) (field rest : string) :
  noChar sep field = true →
  split sep (field +:+ String sep rest) = field :: split sep rest.
Proof.
  induction field as [|c f IH]; intros Hf.
  - cbn [split]. change ("" +:+ ?x) with x. cbn [split].
    by rewrite Ascii.eqb_refl.
  - unfold noChar in Hf. cbn [allChars] in Hf.
    apply andb_true_iff in Hf as [Hc Hf]. apply negb_true_iff in Hc.
    rewrite string_app_cons. cbn [split]. rewrite Hc, (IH Hf). done.
Qed.

Lemma split_concat (sep : ascii) (fields : list string) :
  fields ≠ [] →
  Forall (fun field => noChar sep field = true) fields →
  split sep (String.concat (String sep "") fields) = fields.
Proof.
  intros Hne Hall. induction Hall as [|f fields Hf Hall IH]; [done|].
  destruct fields as [|g fields]; [by apply split_one|].
  rewrite concat_cons2. change (String sep "" +:+ ?x) with (String sep x).
  rewrite split_app_sep by done. by rewrite IH.
Qed.

(** A string that [trim] empties holds blanks only, and the name read
    from it is empty. *)
Lemma trim_blank (s : string) :
  trim s = "" → allChars isWhiteSpace s = true.
Proof.
  unfold trim. induction s as [|c s IH]; [done|]. cbn [trimStart allChars].
  destruct (isWhiteSpace c) eqn:Hc; [exact IH|].
  cbn [trimEnd]. rewrite Hc. by destruct (trimEnd s).
Qed.

Lemma blank_trim (s : string) :
  allChars isWhiteSpace s = true → trim s = "".
Proof.
  unfold trim. induction s as [|c s IH]; [done|]. cbn [trimStart allChars].
  intros [Hc Hs]%andb_true_iff. rewrite Hc. by apply IH.
Qed.

Lemma blank_noChar (c : ascii) (s : string) :
  isWhiteSpace c = false →
  allChars isWhiteSpace s = true → noChar c s = true.
Proof.
  intros Hc. unfold noChar. induction s as [|d s IH]; [done|].
  cbn [allChars]. intros [Hd Hs]%andb_true_iff. rewrite (IH Hs), andb_true_r.
  apply negb_true_iff. destruct (Ascii.eqb_spec d c) as [->|]; congruence.
Qed.

(** The row read from a line is the row given by its fields. *)
Lemma classify_joinFields (fields : list string) :
  Forall rawField fields →
  classify (joinFields fields) = rowOfFields fields.
Proof.
  intros Hraw. unfold classify, rowOfFields. cbn zeta.
  destruct fields as [|f fields]; [done|].
  assert (split comma (joinFields (f :: fields)) = f :: fields) as Hsplit.
  { apply split_concat; [done|].
    eapply Forall_impl; [exact Hraw|]. by intros x [? _]. }
  rewrite columnsOf_nameOfField, Hsplit.
  destruct (String.eqb_spec (trim (joinFields (f :: fields))) "") as [Hblank|_];
    [|done].
  apply trim_blank in Hblank.
  assert (fields = []) as ->.
  { assert (f :: fields = [joinFields (f :: fields)]) as Hone.
    { etrans; [symmetry; exact Hsplit|].
      apply split_one. by apply blank_noChar. }
    by injection Hone. }
  change (joinFields [f]) with f in Hblank.
  assert (nameOfField f = "") as Hname.
  { unfold nameOfField. apply blank_trim.
    by apply allChars_filterChars_keep. }
  cbn. by rewrite Hname.
Qed.

Lemma concat_consHead (sep : string) (c : ascii) (pieces : list string) :
  pieces ≠ [] →
  String.concat sep (consHead c pieces) = String c (String.concat sep pieces).
Proof. intros Hne. by destruct pieces as [|p [|q rest]]. Qed.

(** Joining the pieces of [split] by the separator gives the string
    back. *)
Lemma concat_split (sep : ascii) (s : string) :
  String.concat (String sep "") (split sep s) = s.
Proof.
  induction s as [|c s IH]; [done|]. cbn [split].
  destruct (Ascii.eqb_spec c sep) as [->|_].
  - pose proof (split_nonempty sep s) as Hne.
    destruct (split sep s) as [|p rest] eqn:Hs; [done|].
    rewrite concat_cons2, IH. done.
  - rewrite concat_consHead by apply split_nonempty. by rewrite IH.
Qed.

Lemma split_allChars (keep : ascii → bool) (sep : ascii) (s : string) :
  allChars keep s = true →
  Forall (fun piece => allChars keep piece = true) (split sep s).
Proof.
  induction s as [|c s IH]; cbn [split allChars]; [by repeat constructor|].
  intros [Hc Hs]%andb_true_iff.
  destruct (Ascii.eqb c sep); [constructor; [done|by apply IH]|].
  apply consHead_Forall; [| |by apply IH].
  - intros h Hh. cbn [allChars]. by rewrite Hc, Hh.
  - cbn [allChars]. by rewrite Hc.
Qed.

(** Every text is the text of a sheet: its first line as the header, and
    the pieces between the commas of its other lines as the fields. *)
Lemma sheetText_covers (csv : string) :
  ∃ header rows,
    csv = sheetText header rows
    ∧ noChar LF header = true
    ∧ Forall (Forall rawField) rows.
Proof.
  pose proof (concat_split LF csv) as Hcsv.
  pose proof (split_noChar LF csv) as Hlines.
  pose proof (split_nonempty LF csv) as Hne.
  destruct (split LF csv) as [|header lines]; [done|].
  inversion Hlines as [|? ? Hheader Hrest]; subst.
  exists header, (map (split comma) lines). split; [|split; [done|]].
  - unfold sheetText. rewrite map_map.
    rewrite (map_ext _ (fun l => l)); [by rewrite map_id|].
    intros l. apply concat_split.
  - apply Forall_fmap. eapply Forall_impl; [exact Hrest|].
    intros l Hl. cbn. apply Forall_forall. intros piece Hpiece. split.
    + by apply (proj1 (Forall_forall _ _) (split_noChar comma l)).
    + by apply (proj1 (Forall_forall _ _) (split_allChars _ comma l Hl)).
Qed.

Lemma map_classify_sameLine (lines reads : list string) :
  Forall2 sameLine lines reads → map classify reads = map classify lines.
Proof.
  induction 1 as [|line read lines reads Hsame _ IH]; [done|].
  cbn [map]. by rewrite (classify_sameLine _ _ Hsame), IH.
Qed.

(** The data lines read from the text of a sheet give the rows of the
    sheet. *)
Lemma classify_dataLines (header : string) (rows : list (list string)) :
  noChar LF header = true →
  Forall (Forall rawField) rows →
  map classify (dataLines (sheetText header rows)) = map rowOfFields rows.
Proof.
  intros Hheader Hrows.
  assert (Forall (fun line => noChar LF line = true)
                 (header :: map joinFields rows)) as Hlines.
  { constructor; [done|]. apply Forall_fmap.
    eapply Forall_impl; [exact Hrows|]. intros fields Hfields. cbn.
    apply allChars_concat; [done|].
    eapply Forall_impl; [exact Hfields|]. by intros x [_ ?]. }
  destruct (splitLines_concat header (map joinFields rows) Hlines)
    as (read & reads & Hsplit & _ & Hsame).
  unfold dataLines, sheetText. rewrite Hsplit.
  change (skipn 1 (read :: reads)) with reads.
  rewrite (map_classify_sameLine _ _ Hsame), map_map.
  apply map_ext_in. intros fields Hin. apply classify_joinFields.
  apply list_elem_of_In in Hin.
  by apply (proj1 (Forall_forall _ _) Hrows).
Qed.

(** C2. Every text is the text of a sheet: a header line followed by
    rows, each on a line of its own with its fields separated by commas.
    The catalog built by [parseMasterTasks] from the text of a sheet is
    the one described row by row: one task per row whose first field
    gives a name, in the order of the rows, with as subtasks the rows
    that follow it up to the next such row and give no name in the first
    field and a name in the second. Rows that give neither name, blank
    lines among them, can be removed without changing the result, rows
    before the first task row give nothing, and the rows after them are
    still read. *)
Theorem parseMasterTasks_groups_rows (before : list Task) (header : string)
    (rows : list (list string)) :
  noChar LF header = true →
  Forall (Forall rawField) rows →
  parseMasterTasks before (sheetText header rows)
  = before ++ catalogOfRows (map rowOfFields rows)
  ∧ map task_name (parseMasterTasks [] (sheetText header rows))
    = omap rowTaskName (map rowOfFields rows)
  ∧ (∀ rows', catalogOfRows (List.filter (fun r => negb (isSkippedRow r)) rows')
              = catalogOfRows rows')
  ∧ (∀ orphans rows',
       catalogOfRows (List.filter (fun r => negb (isTaskRow r)) orphans ++ rows')
       = catalogOfRows rows')
  ∧ (∀ csv, ∃ header' rows',
       csv = sheetText header' rows'
       ∧ noChar LF header' = true
       ∧ Forall (Forall rawField) rows').
Proof.
  intros Hheader Hrows. unfold parseMasterTasks.
  rewrite !parse_loop_start, (classify_dataLines _ _ Hheader Hrows).
  split; [done|].
  split; [cbn [app]; apply catalogOfRows_names|].
  split; [apply catalogOfRows_skipped|].
  split; [apply catalogOfRows_orphans|apply sheetText_covers].
Qed.

(** Witness of C2 on a sheet with rows of every kind: a subtask row
    before the first task row, a task with two subtask rows around a
    blank line and a row with neither name, and a second task. *)
Lemma parseMasterTasks_groups_rows_witness :
  sheetText "Task,Subtask,Points"
    [[""; "orphan"]; ["Run"; ""; "10"]; [""; " warm up "]; [];
     [""; ""; "7"]; [""; "sprint"]; ["Walk"]]
  = csvOfLines ["Task,Subtask,Points"; ",orphan"; "Run,,10"; ", warm up "; "";
                ",,7"; ",sprint"; "Walk"]
  ∧ map (fun t => (task_name t, map sub_name (subtasks t)))
        (parseMasterTasks []
           (sheetText "Task,Subtask,Points"
              [[""; "orphan"]; ["Run"; ""; "10"]; [""; " warm up "]; [];
               [""; ""; "7"]; [""; "sprint"]; ["Walk"]]))
    = [("Run", ["warm up"; "sprint"]); ("Walk", [])].
Proof.
  split; [reflexivity|].
  pose proof (parseMasterTasks_groups_rows [] "Task,Subtask,Points"
                [[""; "orphan"]; ["Run"; ""; "10"]; [""; " warm up "]; [];
                 [""; ""; "7"]; [""; "sprint"]; ["Walk"]]) as Hrows.
  destruct Hrows as (Hcatalog & _).
  - reflexivity.
  - repeat constructor.
  - rewrite Hcatalog. reflexivity.
Defined.

(** ** A day with every task ticked *)

Lemma fold_accumulate_completed (l : list TaskInstance) (x : number) :
  Forall (fun inst => completed inst = true) l →
  fold_left accumulate l (x, x)
  = (fold_left add (map (fun i => points (task i)) l) x,
     fold_left add (map (fun i => points (task i)) l) x).
Proof.
  intros Hall. revert x.
  induction Hall as [|inst l Hinst _ IH]; intros x; [done|].
  cbn [fold_left map]. unfold accumulate at 2. rewrite Hinst. apply IH.
Qed.

(** A positive finite number divided by itself is 1. *)
Lemma div_same (m : positive) (e : Z) :
  div (S754_finite false m e) (S754_finite false m e) = ofZ 1.
Proof.
  unfold div, SFdiv, SFdiv_core_binary.
  rewrite Z.sub_diag.
  replace (Z.min (fexp prec emax (Zdigits2 (Z.pos m) + e - (Zdigits2 (Z.pos m) + e))) 0)
    with (-53)%Z by (rewrite Z.sub_diag; reflexivity).
  change (0 - -53)%Z with 53%Z. cbv iota beta.
  rewrite (surjective_pairing (Z.div_eucl _ _)).
  change (fst (Z.div_eucl ?a ?b)) with (a / b)%Z.
  change (snd (Z.div_eucl ?a ?b)) with (a mod b)%Z.
  rewrite Z.shiftl_mul_pow2 by lia.
  rewrite Z.mul_comm, Z.div_mul, Z.mod_mul by lia.
  unfold new_location. 
  destruct (Z.even (Z.pos m)); reflexivity.
Qed.

(** X9. When every instance of the day is completed, the points earned
    are the total, bit for bit; and when that total is a positive finite
    number the progress is exactly 1 and the all-done banner is shown. *)
Theorem all_completed_all_done (todayInstances : list TaskInstance) :
  Forall (fun inst => completed inst = true) todayInstances →
  currentPoints (updateProgress todayInstances)
  = totalPoints (updateProgress todayInstances)
  ∧ (gt (totalPoints (updateProgress todayInstances)) zero = true →
     isFinite (totalPoints (updateProgress todayInstances)) = true →
     progressPercent (updateProgress todayInstances) = ofZ 1
     ∧ allDone (updateProgress todayInstances) = true).
Proof.
  intros Hall. unfold updateProgress.
  rewrite (fold_accumulate_completed _ zero Hall).
  set (total := fold_left add _ zero).
  cbn [currentPoints totalPoints progressPercent allDone].
  split; [done|]. intros Hgt Hfin. rewrite Hgt.
  destruct total as [[]|[]| |[] m e] eqn:Htotal; try discriminate.
  rewrite div_same. split; [done|].
  destruct todayInstances; [discriminate|reflexivity].
Qed.

Lemma all_completed_all_done_witness :
  currentPoints (updateProgress [tickedInstance; tickedInstance])
  = totalPoints (updateProgress [tickedInstance; tickedInstance])
  ∧ progressPercent (updateProgress [tickedInstance; tickedInstance]) = ofZ 1
  ∧ allDone (updateProgress [tickedInstance; tickedInstance]) = true.
Proof.
  pose proof (all_completed_all_done [tickedInstance; tickedInstance])
    as Hdone.
  destruct Hdone as [Hsame Hone]; [by repeat constructor|].
  split; [exact Hsame|]. apply Hone; reflexivity.
Defined.

(** ** Sequences of checkbox events *)

Lemma perform_alter (l : list TaskInstance) (a : Action) :
  perform l a
  = match findIndex (actionInstance a) l with
    | Some k => alter (effect a) k l
    | None => l
    end.
Proof. by destruct a. Qed.

Lemma effect_inst_id (a : Action) (inst : TaskInstance) :
  inst_id (effect a inst) = inst_id inst.
Proof. by destruct a. Qed.

Lemma effect_task (a : Action) (inst : TaskInstance) :
  task (effect a inst) = task inst.
Proof. by destruct a. Qed.

Lemma map_alter_same {B} (g : TaskInstance → B)
    (f : TaskInstance → TaskInstance) (k : nat) (l : list TaskInstance) :
  (∀ inst, g (f inst) = g inst) → map g (alter f k l) = map g l.
Proof.
  intros Hf. revert k. induction l as [|i l IH]; intros [|k]; cbn; [done..| |].
  - by rewrite Hf.
  - f_equal. apply IH.
Qed.

Lemma findIndex_alter (f : TaskInstance → TaskInstance) (k : nat)
    (l : list TaskInstance) (instanceId : string) :
  (∀ inst, inst_id (f inst) = inst_id inst) →
  findIndex instanceId (alter f k l) = findIndex instanceId l.
Proof.
  intros Hf. revert k. induction l as [|i l IH]; intros [|k]; cbn; [done..| |].
  - by rewrite Hf.
  - by rewrite IH.
Qed.

Lemma perform_map {B} (g : TaskInstance → B) (l : list TaskInstance)
    (a : Action) :
  (∀ a' inst, g (effect a' inst) = g inst) →
  map g (perform l a) = map g l.
Proof.
  intros Hg. rewrite perform_alter.
  destruct (findIndex _ l); [|done]. by apply map_alter_same.
Qed.

Lemma totalPoints_tasks (l : list TaskInstance) :
  totalPoints (updateProgress l)
  = fold_left add (map (fun t => points t) (map task l)) zero.
Proof.
  unfold updateProgress. rewrite fold_accumulate. cbn [totalPoints].
  by rewrite map_map.
Qed.

(** X10. Checkbox events change neither the instances of the day, nor
    their order, ids and tasks; so the total of the day stays what it
    was. *)
Theorem events_keep_tasks (todayInstances : list TaskInstance)
    (actions : list Action) :
  map inst_id (performAll todayInstances actions) = map inst_id todayInstances
  ∧ map task (performAll todayInstances actions) = map task todayInstances
  ∧ totalPoints (updateProgress (performAll todayInstances actions))
    = totalPoints (updateProgress todayInstances).
Proof.
  assert (map inst_id (performAll todayInstances actions)
            = map inst_id todayInstances
          ∧ map task (performAll todayInstances actions)
            = map task todayInstances) as [Hids Htasks].
  { unfold performAll. revert todayInstances.
    induction actions as [|a actions IH]; intros l; [done|].
    cbn [fold_left]. destruct (IH (perform l a)) as [-> ->].
    split; apply perform_map; intros; [apply effect_inst_id|apply effect_task]. }
  split; [done|]. split; [done|].
  by rewrite !totalPoints_tasks, Htasks.
Qed.

Lemma toggleTask_twice (b1 b2 : bool) (inst : TaskInstance) :
  toggleTask b2 (toggleTask b1 inst) = toggleTask b2 inst.
Proof.
  assert (∀ b i, toggleTask b i
                 = mkTaskInstance (inst_id i) (task i) b
                     ((fun _ => b) <$> subtaskCompletion i)) as Heq.
  { intros b i. rewrite <- toggleTask_fmap. done. }
  rewrite (Heq b2 (toggleTask b1 inst)), (Heq b2 inst), toggleTask_fmap.
  cbn [inst_id task toggleTask]. f_equal.
  by rewrite <- map_fmap_compose.
Qed.

Lemma toggleSubtask_twice (s : string) (b1 b2 : bool) (inst : TaskInstance) :
  toggleSubtask s b2 (toggleSubtask s b1 inst) = toggleSubtask s b2 inst.
Proof.
  unfold toggleSubtask. cbn [subtaskCompletion inst_id task].
  by rewrite assign_twice.
Qed.

Lemma toggleSubtask_commute (s1 s2 : string) (b1 b2 : bool)
    (inst : TaskInstance) :
  s1 ≠ s2 →
  toggleSubtask s2 b2 (toggleSubtask s1 b1 inst)
  = toggleSubtask s1 b1 (toggleSubtask s2 b2 inst).
Proof.
  intros Hne. unfold toggleSubtask. cbn [subtaskCompletion inst_id task].
  by rewrite (assign_commute s1 s2).
Qed.

(** X11. A box changed twice in a row is left as the second change alone
    leaves it, for a task box and for a subtask box. *)
Theorem last_change_wins (todayInstances : list TaskInstance)
    (instanceId subtaskId : string) (first second : bool) :
  handleTaskToggle (handleTaskToggle todayInstances instanceId first)
                   instanceId second
  = handleTaskToggle todayInstances instanceId second
  ∧ handleSubtaskToggle
      (handleSubtaskToggle todayInstances instanceId subtaskId first)
      instanceId subtaskId second
    = handleSubtaskToggle todayInstances instanceId subtaskId second.
Proof.
  split.
  - unfold handleTaskToggle.
    destruct (findIndex instanceId todayInstances) as [k|] eqn:Hk.
    + rewrite findIndex_alter, Hk by done.
      rewrite list_alter_alter_eq. apply list_alter_ext; [|done].
      intros inst _. apply toggleTask_twice.
    + by rewrite Hk.
  - unfold handleSubtaskToggle.
    destruct (findIndex instanceId todayInstances) as [k|] eqn:Hk.
    + rewrite findIndex_alter, Hk by done.
      rewrite list_alter_alter_eq. apply list_alter_ext; [|done].
      intros inst _. apply toggleSubtask_twice.
    + by rewrite Hk.
Qed.

(** X12. Two events on different instances, or on two different subtask
    boxes, can be made in either order: the instances end up the same. *)
Theorem independent_events_commute (todayInstances : list TaskInstance)
    (a1 a2 : Action) :
  independent a1 a2 →
  perform (perform todayInstances a1) a2
  = perform (perform todayInstances a2) a1.
Proof.
  intros Hind. rewrite !perform_alter.
  destruct (findIndex (actionInstance a1) todayInstances) as [k1|] eqn:H1;
    destruct (findIndex (actionInstance a2) todayInstances) as [k2|] eqn:H2;
    rewrite ?findIndex_alter, ?H1, ?H2 by apply effect_inst_id; try done.
  destruct (decide (k1 = k2)) as [<-|Hk].
  - destruct Hind as [Hids|Hsubs].
    + apply findIndex_Some in H1 as (i1 & Hi1 & Hid1).
      apply findIndex_Some in H2 as (i2 & Hi2 & Hid2).
      congruence.
    + destruct a1 as [|i1 s1 b1], a2 as [|i2 s2 b2]; try done.
      cbn [effect]. rewrite !list_alter_alter_eq.
      apply list_alter_ext; [|done]. intros inst _. cbn.
      by apply toggleSubtask_commute.
  - by apply list_alter_alter_ne.
Qed.

Lemma independent_events_commute_witness :
  perform (perform (generateTodayInstances walkCatalog 1)
                   (SubtaskChange "walk" "walk_out" true))
          (SubtaskChange "walk" "walk_back" true)
  = perform (perform (generateTodayInstances walkCatalog 1)
                     (SubtaskChange "walk" "walk_back" true))
            (SubtaskChange "walk" "walk_out" true).
Proof.
  apply (independent_events_commute (generateTodayInstances walkCatalog 1)
           (SubtaskChange "walk" "walk_out" true)
           (SubtaskChange "walk" "walk_back" true)).
  right. discriminate.
Defined.

Lemma boxesAgree_newInstance (t : Task) : boxesAgree (newInstance t).
Proof.
  destruct (newInstance_fresh t) as (_ & _ & Hcompleted & _ & Hfalse).
  destruct (decide (subtaskCompletion (newInstance t) = ∅)) as [Hempty|Hne].
  - by left.
  - right. rewrite Hcompleted. symmetry. apply not_true_is_false.
    intros Hall. rewrite forallb_objectValues in Hall.
    apply map_choose in Hne as (k & v & Hk).
    pose proof (Hall _ _ Hk) as Hv. pose proof (Hfalse _ _ Hk) as Hv'.
    congruence.
Qed.

Lemma boxesAgree_toggleTask (b : bool) (inst : TaskInstance) :
  boxesAgree (toggleTask b inst).
Proof.
  unfold boxesAgree. rewrite toggleTask_fmap.
  destruct (decide (subtaskCompletion inst = ∅)) as [->|Hne].
  - left. apply fmap_empty.
  - right. cbn [completed toggleTask]. destruct b.
    + symmetry. apply forallb_objectValues. intros k v.
      rewrite lookup_fmap. by destruct (subtaskCompletion inst !! k); intros [= <-].
    + symmetry. apply not_true_is_false. intros Hall.
      rewrite forallb_objectValues in Hall.
      apply map_choose in Hne as (k & v & Hk).
      specialize (Hall k false). rewrite lookup_fmap, Hk in Hall.
      by specialize (Hall eq_refl).
Qed.

Lemma boxesAgree_effect (a : Action) (inst : TaskInstance) :
  boxesAgree (effect a inst).
Proof.
  destruct a as [i b|i s b]; [apply boxesAgree_toggleTask|by right].
Qed.

(** X13. From the instances of the day on, whatever boxes are changed and
    in whatever order, the task box and the subtask boxes of every
    instance agree: an instance with subtask boxes is completed exactly
    when all of them are ticked. *)
Theorem boxes_always_agree (catalog : list Task) (today : Date)
    (actions : list Action) :
  Forall boxesAgree
         (performAll (generateTodayInstances catalog today) actions).
Proof.
  unfold performAll.
  assert (Forall boxesAgree (generateTodayInstances catalog today)) as Hstart.
  { unfold generateTodayInstances. apply Forall_forall. intros inst Hin.
    apply list_elem_of_fmap in Hin as (t & -> & _). apply boxesAgree_newInstance. }
  revert Hstart. generalize (generateTodayInstances catalog today).
  induction actions as [|a actions IH]; intros l Hl; [done|].
  cbn [fold_left]. apply IH. rewrite perform_alter.
  destruct (findIndex _ l) as [k|]; [|done].
  apply Forall_alter; [done|]. intros inst _ _. apply boxesAgree_effect.
Qed.

(** ** Page state and sheet loader *)

(** X14. When [render] comes to its end, the all-done banner is shown
    exactly when [updateProgress] finds the day done; with no instance of
    the day it is hidden, also when the catalog is not empty: what the
    first branch of [render] does to the banner is undone by the call of
    [updateProgress] that follows. *)
Theorem render_banner (browser : Browser) (app : App) :
  (snd (render browser app) = None →
   allDoneHidden (fst (render browser app))
   = negb (allDone (updateProgress (app_todayInstances app))))
  ∧ (app_todayInstances app = [] →
     snd (render browser app) = None
     ∧ allDoneHidden (fst (render browser app)) = true).
Proof.
  split.
  - unfold render. destruct (_ && _); [done|].
    cbn [app_todayInstances withAllDoneHidden].
    by destruct (appendTaskElements _ _).
  - destruct app as [master instances hidden value status saved].
    cbn [app_todayInstances]. intros ->. unfold render.
    cbn [app_todayInstances app_masterTasks length Nat.eqb andb].
    by destruct (0 <? length master)%nat.
Qed.

(** The state in which the [try] block of [loadTasksFromUrl] starts. *)
Lemma load_start (browser : Browser) (app : App) :
  render browser
    (withTodayInstances []
       (withMasterTasks []
          (withLoader (setLoaderState "Loading tasks..." false true) app)))
  = (mkApp [] [] true (sheetUrlInput app)
           (setLoaderState "Loading tasks..." false true) (savedUrl app),
     None).
Proof. reflexivity. Qed.

Lemma render_cases (browser : Browser) (app : App) :
  ∃ hidden reason,
    render browser app = (withAllDoneHidden hidden app, reason).
Proof.
  unfold render. destruct (_ && _).
  - by exists (negb (allDone (updateProgress (app_todayInstances app)))), None.
  - cbn [app_todayInstances withAllDoneHidden].
    destruct (appendTaskElements _ _) as [message|].
    + by exists true, (Some message).
    + by exists (negb (allDone (updateProgress (app_todayInstances app)))), None.
Qed.

Lemma render_input (browser : Browser) (app : App) (value : string)
    (saved : option string) :
  render browser (withSavedUrl saved (withSheetUrlInput value app))
  = (withSavedUrl saved (withSheetUrlInput value (fst (render browser app))),
     snd (render browser app)).
Proof.
  unfold render.
  cbn [app_todayInstances app_masterTasks withSavedUrl withSheetUrlInput
       withAllDoneHidden].
  destruct (_ && _); [done|]. by destruct (appendTaskElements _ _).
Qed.

(** Apart from the URL input, the state a load ends in is the one it ends
    in from [blankApp]. *)
Lemma load_from_blank (browser : Browser) (sheetUrl : string) (app : App) :
  loadTasksFromUrl browser sheetUrl app
  = withSheetUrlInput (sheetUrlInput app)
      (loadTasksFromUrl browser sheetUrl blankApp).
Proof.
  unfold loadTasksFromUrl. rewrite !load_start.
  destruct (getCsvUrl sheetUrl) as [csvUrl|message]; [|done].
  destruct (fetch browser csvUrl) as [response|reason]; [|done].
  destruct (negb (response_ok response)); [done|].
  destruct (response_text response) as [csvData|reason]; [|done].
  unfold withTodayInstances, withMasterTasks, blankApp.
  cbn [app_masterTasks app_todayInstances allDoneHidden sheetUrlInput loader
       savedUrl].
  set (master := parseMasterTasks [] csvData).
  set (instances := generateTodayInstances master (today_getDay browser)).
  set (loading := setLoaderState "Loading tasks..." false true).
  rewrite (render_input browser (mkApp master instances true "" loading None)
             (sheetUrlInput app) (savedUrl app)
           : render browser
               (mkApp master instances true (sheetUrlInput app) loading
                      (savedUrl app)) = _).
  destruct (render_cases browser (mkApp master instances true "" loading None))
    as (hidden & reason & ->).
  by destruct reason.
Qed.

(** X15. A load wipes what was there: apart from the value of the URL
    input, which it leaves alone, [loadTasksFromUrl] ends in the same
    state whatever the catalog, the instances, the banner, the status
    line and the saved URL were before. *)
Theorem load_forgets_previous_state (browser : Browser) (sheetUrl : string)
    (app1 app2 : App) :
  loadTasksFromUrl browser sheetUrl app1
  = withSheetUrlInput (sheetUrlInput app1)
      (loadTasksFromUrl browser sheetUrl app2).
Proof.
  rewrite (load_from_blank browser sheetUrl app1).
  rewrite (load_from_blank browser sheetUrl app2).
  by destruct (loadTasksFromUrl browser sheetUrl blankApp).
Qed.

Lemma load_success_saved (browser : Browser) (sheetUrl : string) (app : App) :
  statusClass (loader (loadTasksFromUrl browser sheetUrl app)) = "success" →
  savedUrl (loadTasksFromUrl browser sheetUrl app) = Some sheetUrl.
Proof.
  unfold loadTasksFromUrl. rewrite load_start.
  destruct (getCsvUrl sheetUrl) as [csvUrl|message]; [|done].
  destruct (fetch browser csvUrl) as [response|reason]; [|done].
  destruct (negb (response_ok response)); [done|].
  destruct (response_text response) as [csvData|reason]; [|done].
  match goal with
  | |- context [render browser ?a] =>
      destruct (render_cases browser a) as (hidden & reason & ->)
  end.
  by destruct reason.
Qed.

(** X16. When [loadTasksFromUrl] has settled, the button is enabled again
    and the URL input is as it was; and either the status line is a
    success, the URL is saved as it was given and the status text counts
    the tasks of the catalog, or the status line is an error whose text
    starts with Error and no URL is saved. *)
Theorem load_outcome (browser : Browser) (sheetUrl : string) (app : App) :
  buttonDisabled (loader (loadTasksFromUrl browser sheetUrl app)) = false
  ∧ buttonText (loader (loadTasksFromUrl browser sheetUrl app)) = "Load Tasks"
  ∧ sheetUrlInput (loadTasksFromUrl browser sheetUrl app) = sheetUrlInput app
  ∧ ((statusClass (loader (loadTasksFromUrl browser sheetUrl app)) = "success"
      ∧ savedUrl (loadTasksFromUrl browser sheetUrl app) = Some sheetUrl
      ∧ statusText (loader (loadTasksFromUrl browser sheetUrl app))
        = loadedMessage
            (length (app_masterTasks (loadTasksFromUrl browser sheetUrl app))))
     ∨ (statusClass (loader (loadTasksFromUrl browser sheetUrl app)) = "error"
        ∧ savedUrl (loadTasksFromUrl browser sheetUrl app) = None
        ∧ ∃ message,
            statusText (loader (loadTasksFromUrl browser sheetUrl app))
            = "Error: " +:+ message)).
Proof.
  unfold loadTasksFromUrl. rewrite load_start.
  destruct (getCsvUrl sheetUrl) as [csvUrl|message];
    [|cbn; repeat split; right; eauto].
  destruct (fetch browser csvUrl) as [response|reason];
    [|cbn; repeat split; right; eauto].
  destruct (negb (response_ok response)); [cbn; repeat split; right; eauto|].
  destruct (response_text response) as [csvData|reason];
    [|cbn; repeat split; right; eauto].
  cbn [app_masterTasks withMasterTasks withTodayInstances].
  match goal with
  | |- context [render browser ?a] =>
      destruct (render_cases browser a) as (hidden & reason & ->)
  end.
  destruct reason as [message|]; cbn; repeat split; [right|left]; eauto.
Qed.

(** X17. After a load the catalog and the instances of the day are empty,
    or they are what [parseMasterTasks] and [generateTodayInstances] make
    of the text of the response to this very load: nothing of an earlier
    sheet is left, also when the load ends in an error. *)
Theorem load_catalog_from_response (browser : Browser) (sheetUrl : string)
    (app : App) :
  (app_masterTasks (loadTasksFromUrl browser sheetUrl app) = []
   ∧ app_todayInstances (loadTasksFromUrl browser sheetUrl app) = []
   ∧ allDoneHidden (loadTasksFromUrl browser sheetUrl app) = true)
  ∨ ∃ csvUrl response csvData,
      getCsvUrl sheetUrl = Returned csvUrl
      ∧ fetch browser csvUrl = Fulfilled response
      ∧ response_ok response = true
      ∧ response_text response = Fulfilled csvData
      ∧ app_masterTasks (loadTasksFromUrl browser sheetUrl app)
        = parseMasterTasks [] csvData
      ∧ app_todayInstances (loadTasksFromUrl browser sheetUrl app)
        = generateTodayInstances (parseMasterTasks [] csvData)
                                 (today_getDay browser).
Proof.
  unfold loadTasksFromUrl. rewrite load_start.
  destruct (getCsvUrl sheetUrl) as [csvUrl|message]; [|by left].
  destruct (fetch browser csvUrl) as [response|reason] eqn:Hfetch; [|by left].
  destruct (response_ok response) eqn:Hok; [|by left].
  destruct (response_text response) as [csvData|reason] eqn:Htext; [|by left].
  right. exists csvUrl, response, csvData.
  cbn [negb app_masterTasks withMasterTasks withTodayInstances].
  match goal with
  | |- context [render browser ?a] =>
      destruct (render_cases browser a) as (hidden & reason & ->)
  end.
  by destruct reason.
Qed.

Lemma getCsvUrl_message (url message : string) :
  getCsvUrl url = Thrown message → message = invalidUrlMessage.
Proof.
  unfold getCsvUrl. repeat case_match; try discriminate. by intros [= <-].
Qed.

(** X18. A URL that [getCsvUrl] refuses is never fetched: the load ends
    in one state whatever the browser would answer, with an empty
    catalog, the banner hidden, no saved URL, and the message of
    [getCsvUrl] on the status line. *)
Theorem load_refused_url (browser : Browser) (sheetUrl message : string)
    (app : App) :
  getCsvUrl sheetUrl = Thrown message →
  loadTasksFromUrl browser sheetUrl app
  = mkApp [] [] true (sheetUrlInput app)
          (mkLoaderState ("Error: " +:+ invalidUrlMessage) "error" false
                         "Load Tasks")
          None.
Proof.
  intros Hthrown.
  rewrite <- (getCsvUrl_message sheetUrl message Hthrown).
  unfold loadTasksFromUrl. rewrite load_start. by rewrite Hthrown.
Qed.

Lemma load_refused_url_witness :
  loadTasksFromUrl walkBrowser "https://example.org/sheet.csv" blankApp
  = mkApp [] [] true ""
          (mkLoaderState ("Error: " +:+ invalidUrlMessage) "error" false
                         "Load Tasks")
          None.
Proof.
  apply (load_refused_url walkBrowser "https://example.org/sheet.csv"
           invalidUrlMessage blankApp).
  reflexivity.
Defined.

(** X19. A URL loaded with success by a click is loaded again at the next
    start: [loadInitialData], run on any state that holds the saved URL,
    ends in the state the click ended in, with the URL input set to the
    trimmed URL (the browser answering as before). *)
Theorem saved_url_reloads (browser : Browser) (app restarted : App) :
  trim (sheetUrlInput app) ≠ "" →
  loadSucceeded (handleLoadSheetClick browser app) →
  savedUrl restarted = savedUrl (handleLoadSheetClick browser app) →
  loadInitialData browser restarted
  = withSheetUrlInput (trim (sheetUrlInput app))
      (handleLoadSheetClick browser app).
Proof.
  intros Hurl [Hclass _] Hsaved.
  unfold handleLoadSheetClick, truthyString in *.
  destruct (String.eqb_spec (trim (sheetUrlInput app)) "") as [|_]; [done|].
  cbn [negb] in *.
  rewrite (load_success_saved _ _ _ Hclass) in Hsaved.
  unfold loadInitialData, truthyString. rewrite Hsaved.
  destruct (String.eqb_spec (trim (sheetUrlInput app)) "") as [|_]; [done|].
  cbn [negb].
  rewrite (load_from_blank browser _ (withSheetUrlInput _ restarted)).
  rewrite (load_from_blank browser _ app).
  by destruct (loadTasksFromUrl browser _ blankApp).
Qed.

Lemma saved_url_reloads_witness :
  loadInitialData walkBrowser
    (withSavedUrl (Some "https://docs.google.com/spreadsheets/d/abc/edit")
                  blankApp)
  = withSheetUrlInput "https://docs.google.com/spreadsheets/d/abc/edit"
      (handleLoadSheetClick walkBrowser
         (withSheetUrlInput
            "  https://docs.google.com/spreadsheets/d/abc/edit " blankApp)).
Proof.
  apply (saved_url_reloads walkBrowser
           (withSheetUrlInput
              "  https://docs.google.com/spreadsheets/d/abc/edit " blankApp)
           (withSavedUrl
              (Some "https://docs.google.com/spreadsheets/d/abc/edit")
              blankApp)).
  - discriminate.
  - split; reflexivity.
  - reflexivity.
Defined.
